(** * GitLab client ([integrations/test-gitlab/client.py])

    A shallow embedding of [GitLabHandler]: its constructor, the paginated
    and rate-limited request loop, the recursive group enumeration and the
    per-kind record mappings, followed by the properties established about
    them.

    Python values coming out of [response.json()] are modelled by [value];
    JSON numbers are restricted to integers (ids, counters).  Exceptions are
    modelled by [exn] and raised through [result].  The HTTP transport
    ([http_async_client.get]) and [asyncio.sleep] are the only effects: a
    computation threads the upstream's state and reports the trace of the
    effects it performed.  [setup_webhook], which posts once and logs the
    outcome, is modelled apart with its own effects. *)

From Stdlib Require Import List String Ascii ZArith Lia Bool DecimalString.
Import ListNotations.

Set Warnings "-register-all".
Local Open Scope Z_scope.
Local Open Scope string_scope.
Local Open Scope list_scope.

(** ** Python values and exceptions *)

Inductive value : Type :=
| VNone
| VBool (b : bool)
| VInt (z : Z)
| VStr (s : string)
| VList (l : list value)
| VDict (d : list (string * value)).

Inductive exn : Type :=
| KeyError (k : string)
| TypeError
| AttributeError
| ValueError
| HTTPStatusError (code : Z)
| JSONDecodeError
| TimeoutException
| RecursionError.

Inductive result (A : Type) : Type :=
| Ok (a : A)
| Raise (e : exn).

Arguments Ok {A} a.
Arguments Raise {A} e.

Definition rbind {A B : Type} (r : result A) (k : A -> result B) : result B :=
  match r with
  | Ok a => k a
  | Raise e => Raise e
  end.

Declare Scope result_scope.
Delimit Scope result_scope with result.
Notation "x <- r ;; k" := (rbind r (fun x => k))
  (at level 61, r at next level, right associativity) : result_scope.

(** A dict is an association list in insertion order, holding each key
    once; a key is looked up at its first occurrence. *)
Fixpoint dict_find (d : list (string * value)) (k : string) : option value :=
  match d with
  | [] => None
  | (k', v) :: d' => if String.eqb k' k then Some v else dict_find d' k
  end.

(** [o[k]] with a string key. *)
Definition subscript (o : value) (k : string) : result value :=
  match o with
  | VDict d =>
      match dict_find d k with
      | Some v => Ok v
      | None => Raise (KeyError k)
      end
  | _ => Raise TypeError
  end.

(** [o.get(k, default)]; only a dict has the attribute. *)
Definition py_get (o : value) (k : string) (default : value) : result value :=
  match o with
  | VDict d =>
      match dict_find d k with
      | Some v => Ok v
      | None => Ok default
      end
  | _ => Raise AttributeError
  end.

(** Truth value of an object, as tested by [if], [not] and [while]. *)
Definition truthy (v : value) : bool :=
  match v with
  | VNone => false
  | VBool b => b
  | VInt z => negb (z =? 0)%Z
  | VStr s => negb (String.eqb s "")
  | VList l => match l with [] => false | _ => true end
  | VDict d => match d with [] => false | _ => true end
  end.

Definition truthy_str (s : option string) : bool :=
  match s with
  | None => false
  | Some s => negb (String.eqb s "")
  end.

(** A string holds the UTF-8 encoding of a Python [str]; a byte [10xxxxxx]
    continues the character begun before it. *)
Definition continuation (c : ascii) : bool :=
  match c with
  | Ascii _ _ _ _ _ _ b6 b7 => b7 && negb b6
  end.

(** The characters of a string, each with all of its bytes. *)
Fixpoint code_points (s : string) : list string :=
  match s with
  | EmptyString => []
  | String c s' =>
      match code_points s' with
      | String c' g :: gs =>
          if continuation c' then String c (String c' g) :: gs
          else String c EmptyString :: String c' g :: gs
      | gs => String c EmptyString :: gs
      end
  end.

(** Iterating a [str] yields its characters. *)
Definition chars (s : string) : list value := map VStr (code_points s).

(** The items an object yields when iterated ([for], [list.extend]). *)
Definition py_iter (v : value) : result (list value) :=
  match v with
  | VList l => Ok l
  | VDict d => Ok (map (fun kv => VStr (fst kv)) d)
  | VStr s => Ok (chars s)
  | _ => Raise TypeError
  end.

(** [v > 0]. *)
Definition gt_zero (v : value) : result bool :=
  match v with
  | VInt z => Ok (0 <? z)%Z
  | VBool b => Ok b
  | _ => Raise TypeError
  end.

Definition str_of_Z (z : Z) : string := NilZero.string_of_int (Z.to_int z).

(** A list comprehension whose element expression may raise: elements are
    evaluated left to right and the first exception aborts the whole list. *)
Fixpoint comprehension {A B : Type} (f : A -> result B) (xs : list A)
  : result (list B) :=
  match xs with
  | [] => Ok []
  | x :: xs' =>
      (y <- f x ;; ys <- comprehension f xs' ;; Ok (y :: ys))%result
  end.

(** ** Record mappings *)

Module Normalize.

Local Open Scope result_scope.

(** The dict literal of [fetch_groups] (lines 63-69). *)
Definition group (g : value) : result value :=
  id <- subscript g "id" ;;
  name <- subscript g "name" ;;
  url <- subscript g "web_url" ;;
  description <- py_get g "description" VNone ;;
  visibility <- py_get g "visibility" VNone ;;
  Ok (VDict [("identifier", id); ("name", name); ("url", url);
             ("description", description); ("visibility", visibility)]).

(** The element expression of [fetch_projects] (lines 87-93). *)
Definition project (p : value) : result value :=
  id <- subscript p "id" ;;
  name <- subscript p "name" ;;
  url <- subscript p "web_url" ;;
  description <- subscript p "description" ;;
  ns <- py_get p "namespace" (VDict []) ;;
  full_path <- py_get ns "full_path" VNone ;;
  Ok (VDict [("identifier", id); ("name", name); ("url", url);
             ("description", description); ("namespace", full_path)]).

(** The element expression of [fetch_merge_requests] (lines 105-115). *)
Definition merge_request (mr : value) : result value :=
  id <- subscript mr "id" ;;
  title <- subscript mr "title" ;;
  state <- subscript mr "state" ;;
  author <- subscript mr "author" ;;
  username <- subscript author "username" ;;
  created_at <- subscript mr "created_at" ;;
  updated_at <- subscript mr "updated_at" ;;
  merged_at <- py_get mr "merged_at" VNone ;;
  link <- subscript mr "web_url" ;;
  reviewers <- py_get mr "reviewers" (VList []) ;;
  items <- py_iter reviewers ;;
  names <- comprehension (fun reviewer => subscript reviewer "username") items ;;
  Ok (VDict [("identifier", id); ("title", title); ("status", state);
             ("author", username); ("createdAt", created_at);
             ("updatedAt", updated_at); ("mergedAt", merged_at);
             ("link", link); ("reviewers", VList names)]).

(** The element expression of [fetch_issues] (lines 127-137). *)
Definition issue (i : value) : result value :=
  id <- subscript i "id" ;;
  title <- subscript i "title" ;;
  state <- subscript i "state" ;;
  author <- subscript i "author" ;;
  username <- subscript author "username" ;;
  created_at <- subscript i "created_at" ;;
  updated_at <- subscript i "updated_at" ;;
  closed_at <- py_get i "closed_at" VNone ;;
  link <- subscript i "web_url" ;;
  labels <- py_get i "labels" (VList []) ;;
  Ok (VDict [("identifier", id); ("title", title); ("status", state);
             ("author", username); ("createdAt", created_at);
             ("updatedAt", updated_at); ("closedAt", closed_at);
             ("link", link); ("labels", labels)]).

End Normalize.

(** The test [group.get("subgroup_count", 0) > 0] (line 72). *)
Definition has_subgroups (group : value) : result bool :=
  (count <- py_get group "subgroup_count" (VInt 0) ;; gt_zero count)%result.

(** [type(e).__name__]. *)
Definition class_name (e : exn) : string :=
  match e with
  | KeyError _ => "KeyError"
  | TypeError => "TypeError"
  | AttributeError => "AttributeError"
  | ValueError => "ValueError"
  | HTTPStatusError _ => "HTTPStatusError"
  | JSONDecodeError => "JSONDecodeError"
  | TimeoutException => "TimeoutException"
  | RecursionError => "RecursionError"
  end.

(** ** The transport and its effects *)

Definition query : Type := option (list (string * value)).

(** The arguments of one [http_async_client.get] call. *)
Record Request : Type := {
  url : string;
  params : query;
  headers : list (string * string);
  timeout : Z
}.

(** What the client reads of a response: the status, the decoded body
    ([None] when [response.json()] cannot decode it) and the [X-Next-Page]
    header ([None] when the header is absent). *)
Record Response : Type := {
  status_code : Z;
  json : option value;
  x_next_page : option string
}.

Inductive event : Type :=
| Get (r : Request)
| Sleep (seconds : Z).

(** A computation either finishes (with a value or an exception), leaving
    the upstream in a new state and having performed a list of effects, or
    is cut off by the iteration bound of the model. *)
Inductive outcome (U A : Type) : Type :=
| Done (r : result A) (u : U) (evs : list event)
| OutOfFuel.

Arguments Done {U A} r u evs.
Arguments OutOfFuel {U A}.

Definition M (U A : Type) : Type := U -> outcome U A.

Definition ret {U A : Type} (a : A) : M U A := fun u => Done (Ok a) u [].

Definition lift {U A : Type} (r : result A) : M U A := fun u => Done r u [].

Definition after {U A : Type} (pre : list event) (o : outcome U A) : outcome U A :=
  match o with
  | Done r u evs => Done r u (pre ++ evs)
  | OutOfFuel => OutOfFuel
  end.

Definition bind {U A B : Type} (m : M U A) (k : A -> M U B) : M U B :=
  fun u =>
    match m u with
    | Done (Ok a) u1 evs => after evs (k a u1)
    | Done (Raise e) u1 evs => Done (Raise e) u1 evs
    | OutOfFuel => OutOfFuel
    end.

Declare Scope io_scope.
Delimit Scope io_scope with io.
Notation "x <- m ;; k" := (bind m (fun x => k))
  (at level 61, m at next level, right associativity) : io_scope.

(** [approx o1 o2]: [o2] is what [o1] becomes with a larger iteration
    bound. *)
Definition approx {U A : Type} (o1 o2 : outcome U A) : Prop :=
  o1 = OutOfFuel \/ o1 = o2.

(** ** The handler *)

Record GitLabHandler : Type := {
  api_url : option string;
  token : option string;
  rate_limit : Z;
  rate_limit_period : Z
}.

(** [f"{x}"] for an attribute that holds a string or [None]. *)
Definition fmt (s : option string) : string :=
  match s with
  | Some s => s
  | None => "None"
  end.

Section Client.

(** Module-level configuration read from the environment. *)
Variables RATE_LIMIT RATE_LIMIT_PERIOD : Z.

(** The upstream: each request is answered from the upstream's current
    state, or not at all (the awaited call then raises a timeout). *)
Variable U : Type.
Variable http_get : Request -> U -> option Response * U.

(** [str()] of a list or dict, which the client never builds itself. *)
Variable container_str : value -> string.

Definition py_str (v : value) : string :=
  match v with
  | VNone => "None"
  | VBool true => "True"
  | VBool false => "False"
  | VInt z => str_of_Z z
  | VStr s => s
  | _ => container_str v
  end.

(** [GitLabHandler.__init__] (lines 21-29). *)
Definition init (api_url token : option string) : result GitLabHandler :=
  let self := {| api_url := api_url; token := token;
                 rate_limit := RATE_LIMIT;
                 rate_limit_period := RATE_LIMIT_PERIOD |} in
  if negb (truthy_str token) then Raise ValueError else Ok self.

Variable self : GitLabHandler.

Definition auth_headers : list (string * string) :=
  [("Authorization", "Bearer " ++ fmt (token self))]%string.

Definition request (url : string) (params : query) : Request :=
  {| url := url; params := params; headers := auth_headers; timeout := 30 |}.

Definition get (url : string) (params : query) : M U Response :=
  fun u =>
    match http_get (request url params) u with
    | (Some r, u') => Done (Ok r) u' [Get (request url params)]
    | (None, u') => Done (Raise TimeoutException) u' [Get (request url params)]
    end.

Definition sleep (seconds : Z) : M U unit :=
  fun u => Done (Ok tt) u [Sleep seconds].

(** [response.raise_for_status()]: only a 2xx status passes. *)
Definition raise_for_status (r : Response) : result unit :=
  if ((200 <=? status_code r) && (status_code r <=? 299))%Z then Ok tt
  else Raise (HTTPStatusError (status_code r)).

Definition response_json (r : Response) : result value :=
  match json r with
  | Some v => Ok v
  | None => Raise JSONDecodeError
  end.

Definition page_url (endpoint next_page : string) : string :=
  (fmt (api_url self) ++ endpoint ++ "?page=" ++ next_page)%string.

(** The [while url:] loop of [_rate_limited_request] (lines 37-51); [fuel]
    bounds the number of iterations. *)
Fixpoint request_loop (endpoint : string) (params : query) (fuel : nat)
    (url : option string) (all_data : list value) : M U (list value) :=
  match fuel with
  | O => fun _ => OutOfFuel
  | S fuel' =>
      if truthy_str url then
        (response <- get (fmt url) params ;;
         if (status_code response =? 429)%Z then
           (_ <- sleep (rate_limit_period self) ;;
            request_loop endpoint params fuel' url all_data)
         else
           (_ <- lift (raise_for_status response) ;;
            data <- lift (response_json response) ;;
            items <- lift (py_iter data) ;;
            let all_data := all_data ++ items in
            let next_page := x_next_page response in
            let url := if truthy_str next_page
                       then Some (page_url endpoint (fmt next_page))
                       else None in
            request_loop endpoint params fuel' url all_data))%io
      else ret all_data
  end.

(** [GitLabHandler._rate_limited_request] (lines 31-53). *)
Definition rate_limited_request (fuel : nat) (endpoint : string)
    (params : query) : M U (list value) :=
  let url := (fmt (api_url self) ++ endpoint)%string in
  request_loop endpoint params fuel (Some url) [].

(** The endpoint chosen on line 58. *)
Definition groups_endpoint (parent_id : value) : string :=
  if negb (truthy parent_id) then "/groups"
  else ("/groups/" ++ py_str parent_id ++ "/subgroups")%string.

(** The [for group in data:] loop of [fetch_groups] (lines 62-74), with the
    recursive call abstracted as [recurse]. *)
Fixpoint groups_loop (recurse : value -> M U (list value))
    (data : list value) (all_groups : list value) : M U (list value) :=
  match data with
  | [] => ret all_groups
  | group :: rest =>
      (entity <- lift (Normalize.group group) ;;
       let all_groups := all_groups ++ [entity] in
       recursing <- lift (has_subgroups group) ;;
       if (recursing : bool) then
         (id <- lift (subscript group "id") ;;
          subgroups <- recurse id ;;
          groups_loop recurse rest (all_groups ++ subgroups))
       else groups_loop recurse rest all_groups)%io
  end.

(** [GitLabHandler.fetch_groups] (lines 55-76).  The method counts no
    depth; the only bound on its recursion is the interpreter's recursion
    limit.  [depth] is the number of nested calls of [fetch_groups] the
    interpreter still allows: a call made when none is left raises
    [RecursionError], which nothing in the method catches.  [fuel] bounds
    the iterations of each paginated request. *)
Fixpoint fetch_groups (depth : nat) (fuel : nat) (parent_id : value)
  : M U (list value) :=
  match depth with
  | O => lift (Raise RecursionError)
  | S depth' =>
      (data <- rate_limited_request fuel (groups_endpoint parent_id) None ;;
       groups_loop (fetch_groups depth' fuel) data [])%io
  end.

(** [GitLabHandler.fetch_projects] (lines 79-95). *)
Definition fetch_projects (fuel : nat) : M U (list value) :=
  (let params := Some [("per_page", VInt (rate_limit self))] in
   data <- rate_limited_request fuel "/projects" params ;;
   lift (comprehension Normalize.project data))%io.

(** [GitLabHandler.fetch_merge_requests] (lines 97-117). *)
Definition fetch_merge_requests (fuel : nat) : M U (list value) :=
  (let params := Some [("scope", VStr "all");
                       ("per_page", VInt (rate_limit self))] in
   data <- rate_limited_request fuel "/merge_requests" params ;;
   lift (comprehension Normalize.merge_request data))%io.

(** [GitLabHandler.fetch_issues] (lines 119-139). *)
Definition fetch_issues (fuel : nat) : M U (list value) :=
  (let params := Some [("scope", VStr "all");
                       ("per_page", VInt (rate_limit self))] in
   data <- rate_limited_request fuel "/issues" params ;;
   lift (comprehension Normalize.issue data))%io.

(** *** What the upstream serves *)

(** A response that adds [items] to the accumulator: a 2xx status and a
    body that decodes to something iterable. *)
Definition delivers (r : Response) (items : list value) : Prop :=
  raise_for_status r = Ok tt /\
  exists data, json r = Some data /\ py_iter data = Ok items.

(** [listing endpoint params u url items evs u']: starting at [url] with the
    upstream in state [u], the upstream answers the successive requests for
    one collection, possibly after 429 rejections, delivering [items] over
    one or more pages; [evs] are the effects of that exchange and [u'] is
    the state the upstream is left in. *)
Inductive listing (endpoint : string) (params : query)
  : U -> string -> list value -> list event -> U -> Prop :=
| listing_retry u url r u1 items evs u' :
    url <> "" ->
    http_get (request url params) u = (Some r, u1) ->
    status_code r = 429 ->
    listing endpoint params u1 url items evs u' ->
    listing endpoint params u url items
      (Get (request url params) :: Sleep (rate_limit_period self) :: evs) u'
| listing_last u url r u' items :
    url <> "" ->
    http_get (request url params) u = (Some r, u') ->
    delivers r items ->
    truthy_str (x_next_page r) = false ->
    listing endpoint params u url items [Get (request url params)] u'
| listing_next u url r u1 items items' evs u' :
    url <> "" ->
    http_get (request url params) u = (Some r, u1) ->
    delivers r items ->
    truthy_str (x_next_page r) = true ->
    listing endpoint params u1 (page_url endpoint (fmt (x_next_page r)))
      items' evs u' ->
    listing endpoint params u url (items ++ items')
      (Get (request url params) :: evs) u'.

(** A group hierarchy: each node is a raw group record with the groups
    listed under it. *)
Inductive gtree : Type :=
| Node (group : value) (subgroups : list gtree).

Definition root (t : gtree) : value :=
  match t with Node g _ => g end.

Definition children (t : gtree) : list gtree :=
  match t with Node _ subs => subs end.

(** The canonical record of a raw group. *)
Definition canonical (g : value) : value :=
  match Normalize.group g with
  | Ok entity => entity
  | Raise _ => VNone
  end.

(** Depth-first pre-order of the raw records, descending only below the
    groups whose subgroup count is positive. *)
Fixpoint preorder (t : gtree) : list value :=
  match t with
  | Node g subs =>
      g :: match has_subgroups g with
           | Ok true => flat_map preorder subs
           | _ => []
           end
  end.

(** The nodes the traversal of a forest reaches. *)
Inductive visited (ts : list gtree) : gtree -> Prop :=
| visited_top t : In t ts -> visited ts t
| visited_sub g subs t :
    visited ts (Node g subs) ->
    has_subgroups g = Ok true ->
    In t subs ->
    visited ts t.

(** [serves u parent_id ts evs u']: the upstream in state [u] lists the
    roots of the forest [ts] under [parent_id] and, below each group that
    announces subgroups, that group's own forest. *)
Inductive serves : U -> value -> list gtree -> list event -> U -> Prop :=
| serves_listing u parent_id ts evs1 u1 evs2 u2 :
    listing (groups_endpoint parent_id) None u
      (fmt (api_url self) ++ groups_endpoint parent_id)%string
      (map root ts) evs1 u1 ->
    serves_below u1 ts evs2 u2 ->
    serves u parent_id ts (evs1 ++ evs2) u2
with serves_below : U -> list gtree -> list event -> U -> Prop :=
| serves_none u : serves_below u [] [] u
| serves_leaf u g subs ts entity evs u' :
    Normalize.group g = Ok entity ->
    has_subgroups g = Ok false ->
    serves_below u ts evs u' ->
    serves_below u (Node g subs :: ts) evs u'
| serves_inner u g subs ts entity id evs1 u1 evs2 u2 :
    Normalize.group g = Ok entity ->
    has_subgroups g = Ok true ->
    subscript g "id" = Ok id ->
    serves u id subs evs1 u1 ->
    serves_below u1 ts evs2 u2 ->
    serves_below u (Node g subs :: ts) (evs1 ++ evs2) u2.

End Client.

Arguments get {U} http_get self url params _.
Arguments sleep {U} seconds _.
Arguments request_loop {U} http_get self endpoint params fuel url all_data _.
Arguments rate_limited_request {U} http_get self fuel endpoint params _.
Arguments groups_loop {U} recurse data all_groups _.
Arguments fetch_groups {U} http_get container_str self depth fuel parent_id _.
Arguments fetch_projects {U} http_get self fuel _.
Arguments fetch_merge_requests {U} http_get self fuel _.
Arguments fetch_issues {U} http_get self fuel _.
Arguments listing {U} http_get self endpoint params _ _ _ _ _.
Arguments serves {U} http_get container_str self _ _ _ _ _.
Arguments serves_below {U} http_get container_str self _ _ _ _.

Scheme serves_ind2 := Minimality for serves Sort Prop
  with serves_below_ind2 := Minimality for serves_below Sort Prop.

(** *** Two kinds of upstream *)

(** A scripted upstream hands out a fixed sequence of responses, one per
    request and whatever the request; once the script is exhausted no
    request is answered. *)
Definition scripted (rq : Request) (script : list Response)
  : option Response * list Response :=
  match script with
  | [] => (None, [])
  | r :: script' => (Some r, script')
  end.

(** A stateless upstream answers each request by its content alone. *)
Definition stateless (srv : Request -> option Response) (rq : Request)
    (u : unit) : option Response * unit :=
  (srv rq, tt).

(** The four fetch operations of the handler. *)
Inductive operation : Type :=
| FetchGroups
| FetchProjects
| FetchMergeRequests
| FetchIssues.

Definition fetch {U : Type} (http_get : Request -> U -> option Response * U)
    (container_str : value -> string) (self : GitLabHandler)
    (op : operation) (depth : nat) (fuel : nat) : M U (list value) :=
  match op with
  | FetchGroups => fetch_groups http_get container_str self depth fuel VNone
  | FetchProjects => fetch_projects http_get self fuel
  | FetchMergeRequests => fetch_merge_requests http_get self fuel
  | FetchIssues => fetch_issues http_get self fuel
  end.

(** [emits P o]: every effect performed by a finished computation
    satisfies [P]. *)
Definition emits {U A : Type} (P : event -> Prop) (o : outcome U A) : Prop :=
  match o with
  | Done _ _ evs => Forall P evs
  | OutOfFuel => True
  end.

(** *** Pages and scripts *)

(** A page as the upstream returns it: a status, a list of records and the
    optional next-page header. *)
Record page : Type := {
  status : Z;
  records : list value;
  next_page : option string
}.

Definition page_response (p : page) : Response :=
  {| status_code := status p;
     json := Some (VList (records p));
     x_next_page := next_page p |}.

Definition successful (p : page) : Prop := 200 <= status p <= 299.

(** A non-empty run of pages in which every page but the last announces a
    next page. *)
Fixpoint continued (ps : list page) : Prop :=
  match ps with
  | [] => False
  | p :: ps' =>
      match ps' with
      | [] => truthy_str (next_page p) = false
      | _ :: _ => truthy_str (next_page p) = true /\ continued ps'
      end
  end.

(** A page together with the rejections the upstream sends before it. *)
Definition throttled : Type := (list Response * page)%type.

Definition rejections (tp : throttled) : Prop :=
  Forall (fun r => status_code r = 429) (fst tp).

Definition script_of (tps : list throttled) : list Response :=
  flat_map (fun tp => fst tp ++ [page_response (snd tp)]) tps.

(** The effects of fetching the pages of [tps] starting at [url]: every
    rejected request is followed by a sleep of the configured period and
    by the same request again; every delivered page is followed by the
    request for the page it announces. *)
Fixpoint exchange (self : GitLabHandler) (endpoint : string) (params : query)
    (url : string) (tps : list throttled) : list event :=
  match tps with
  | [] => []
  | tp :: tps' =>
      flat_map (fun _ => [Get (request self url params);
                          Sleep (rate_limit_period self)]) (fst tp)
      ++ Get (request self url params)
      :: exchange self endpoint params
           (page_url self endpoint (fmt (next_page (snd tp)))) tps'
  end.

(** The shape of the effects of one paginated fetch: every request is
    issued with the caller's query parameters and targets either the
    endpoint itself or the endpoint with the announced page number; every
    sleep lasts the configured period. *)
Definition request_shape (self : GitLabHandler) (endpoint : string)
    (caller_params : query) (e : event) : Prop :=
  match e with
  | Get rq =>
      params rq = caller_params /\
      (url rq = (fmt (api_url self) ++ endpoint)%string \/
       exists next, next <> "" /\ url rq = page_url self endpoint next)
  | Sleep seconds => seconds = rate_limit_period self
  end.

(** The groups of a forest's pre-order whose subgroups the traversal
    requests, by id. *)
Definition fetched_under (ts : list gtree) : list value :=
  flat_map (fun g => match has_subgroups g, subscript g "id" with
                     | Ok true, Ok id => [id]
                     | _, _ => []
                     end)
           (flat_map preorder ts).

(** The raw records the traversal finds below a node, in pre-order. *)
Definition below (t : gtree) : list value :=
  match has_subgroups (root t) with
  | Ok true => flat_map preorder (children t)
  | _ => []
  end.

(** A node's block in the output: its own record followed by the records
    of the subgroups found below it. *)
Definition block (t : gtree) : list value := map canonical (preorder t).

(** The number of nested calls of [fetch_groups] the traversal makes below
    a node: none below a group whose subgroup count is not positive. *)
Fixpoint nesting (t : gtree) : nat :=
  match t with
  | Node g subs =>
      match has_subgroups g with
      | Ok true => S (list_max (map nesting subs))
      | _ => 0
      end
  end.

(** The number of nested calls the enumeration of a forest takes, the
    outermost included. *)
Definition depth_needed (ts : list gtree) : nat :=
  S (list_max (map nesting ts)).

(** *** Batches of records *)

(** The resource kinds whose records are mapped by a list comprehension. *)
Inductive kind : Type :=
| Project
| MergeRequest
| Issue.

Definition normalize (k : kind) : value -> result value :=
  match k with
  | Project => Normalize.project
  | MergeRequest => Normalize.merge_request
  | Issue => Normalize.issue
  end.

Definition endpoint_of (k : kind) : string :=
  match k with
  | Project => "/projects"
  | MergeRequest => "/merge_requests"
  | Issue => "/issues"
  end.

Definition params_of (self : GitLabHandler) (k : kind) : query :=
  match k with
  | Project => Some [("per_page", VInt (rate_limit self))]
  | MergeRequest | Issue =>
      Some [("scope", VStr "all"); ("per_page", VInt (rate_limit self))]
  end.

Definition fetch_list {U : Type}
    (http_get : Request -> U -> option Response * U) (self : GitLabHandler)
    (k : kind) (fuel : nat) : M U (list value) :=
  match k with
  | Project => fetch_projects http_get self fuel
  | MergeRequest => fetch_merge_requests http_get self fuel
  | Issue => fetch_issues http_get self fuel
  end.

(** The value found in a raw record by following a path of keys. *)
Fixpoint field (r : value) (path : list string) : option value :=
  match path with
  | [] => Some r
  | k :: path' =>
      match r with
      | VDict d =>
          match dict_find d k with
          | Some v => field v path'
          | None => None
          end
      | _ => None
      end
  end.

Definition has (r : value) (path : list string) : bool :=
  match field r path with
  | Some _ => true
  | None => false
  end.

(** The upstream fields behind the identifier and the other required fields
    of each kind in the field-mapping table. *)
Definition required (k : kind) : list (list string) :=
  match k with
  | Project => [["id"]; ["name"]; ["web_url"]]
  | MergeRequest | Issue =>
      [["id"]; ["title"]; ["state"]; ["author"; "username"];
       ["created_at"]; ["updated_at"]; ["web_url"]]
  end.

(** The records each mapping accepts: every key it subscripts is present
    and every optional value it traverses has the type it expects. *)
Definition well_formed (k : kind) (r : value) : bool :=
  match k with
  | Project =>
      forallb (has r) [["id"]; ["name"]; ["web_url"]; ["description"]]
      && match field r ["namespace"] with
         | None | Some (VDict _) => true
         | Some _ => false
         end
  | MergeRequest =>
      forallb (has r) (required MergeRequest)
      && match field r ["reviewers"] with
         | None => true
         | Some v =>
             match py_iter v with
             | Ok items => forallb (fun i => has i ["username"]) items
             | Raise _ => false
             end
         end
  | Issue => forallb (has r) (required Issue)
  end.

(** The exception classes a record mapping can raise. *)
Definition builtin (e : exn) : Prop :=
  In (class_name e) ["KeyError"; "TypeError"; "AttributeError"].

(** ** Sample data *)

Definition gitlab : GitLabHandler :=
  {| api_url := Some "https://gitlab.example/api/v4";
     token := Some "glpat";
     rate_limit := 10;
     rate_limit_period := 60 |}.

Definition no_containers (v : value) : string := "".

Definition project_record (id : Z) (name : string) : value :=
  VDict [("id", VInt id); ("name", VStr name);
         ("web_url", VStr ("https://gitlab.example/" ++ name));
         ("description", VNone)].

Definition two_pages : list page :=
  [ {| status := 200;
       records := [project_record 1 "a"; project_record 2 "b"];
       next_page := Some "2" |};
    {| status := 200;
       records := [project_record 3 "c"];
       next_page := None |} ].

Definition too_many_requests : Response :=
  {| status_code := 429; json := None; x_next_page := None |}.

Definition throttled_pages : list throttled :=
  [ ([too_many_requests],
     {| status := 200;
        records := [project_record 1 "a"; project_record 2 "b"];
        next_page := Some "2" |});
    ([too_many_requests; too_many_requests],
     {| status := 201;
        records := [project_record 3 "c"];
        next_page := Some "" |}) ].

Definition single_page (l : list value) : Response :=
  {| status_code := 200; json := Some (VList l); x_next_page := None |}.

Definition group_record (id : Z) (name : string) (subgroup_count : Z)
  : value :=
  VDict [("id", VInt id); ("name", VStr name);
         ("web_url", VStr ("https://gitlab.example/groups/" ++ name));
         ("subgroup_count", VInt subgroup_count)].

(** Group A holds one subgroup, B, which holds none. *)
Definition nested_groups (rq : Request) : option Response :=
  if String.eqb (url rq) "https://gitlab.example/api/v4/groups"
  then Some (single_page [group_record 1 "A" 1])
  else if String.eqb (url rq)
            "https://gitlab.example/api/v4/groups/1/subgroups"
  then Some (single_page [group_record 2 "B" 0])
  else None.

(** Whatever is listed, the upstream answers with group A, announcing one
    subgroup: A is listed among its own subgroups. *)
Definition cyclic_groups (rq : Request) : option Response :=
  Some (single_page [group_record 1 "A" 1]).

Definition merge_request_record (id : Z) : value :=
  VDict [("id", VInt id); ("title", VStr "Fix"); ("state", VStr "opened");
         ("author", VDict [("username", VStr "alice")]);
         ("created_at", VStr "2024-01-01"); ("updated_at", VStr "2024-01-02");
         ("web_url", VStr "https://gitlab.example/mr")].

Definition merge_request_without_author (id : Z) : value :=
  VDict [("id", VInt id); ("title", VStr "Fix"); ("state", VStr "opened");
         ("created_at", VStr "2024-01-01"); ("updated_at", VStr "2024-01-02");
         ("web_url", VStr "https://gitlab.example/mr")].

Definition project_without_description : value :=
  VDict [("id", VInt 7); ("name", VStr "p");
         ("web_url", VStr "https://gitlab.example/p")].

Definition canonical_project (id : Z) (name : string) : value :=
  VDict [("identifier", VInt id); ("name", VStr name);
         ("url", VStr ("https://gitlab.example/" ++ name));
         ("description", VNone); ("namespace", VNone)].

(** ** Further definitions *)

(** The URL the loop holds after the pages of [tps], each announcing a
    next page, have been fetched starting at [url]. *)
Fixpoint url_after (self : GitLabHandler) (endpoint : string) (url : string)
    (tps : list throttled) : string :=
  match tps with
  | [] => url
  | tp :: tps' =>
      url_after self endpoint
        (page_url self endpoint (fmt (next_page (snd tp)))) tps'
  end.

(** A delivered page, possibly after rejections, that announces a next
    page. *)
Definition paging (tp : throttled) : Prop :=
  rejections tp /\ successful (snd tp) /\
  truthy_str (next_page (snd tp)) = true.

(** [returns P o]: if the computation finished normally, its value
    satisfies [P]. *)
Definition returns {U A : Type} (P : A -> Prop) (o : outcome U A) : Prop :=
  match o with
  | Done (Ok a) _ _ => P a
  | _ => True
  end.

(** The keys of a dict, in order. *)
Definition keys (v : value) : option (list string) :=
  match v with
  | VDict d => Some (map fst d)
  | _ => None
  end.

(** The record mapping each operation applies. *)
Definition normalizer (op : operation) : value -> result value :=
  match op with
  | FetchGroups => Normalize.group
  | FetchProjects => Normalize.project
  | FetchMergeRequests => Normalize.merge_request
  | FetchIssues => Normalize.issue
  end.

Definition entity_keys (op : operation) : list string :=
  match op with
  | FetchGroups => ["identifier"; "name"; "url"; "description"; "visibility"]
  | FetchProjects => ["identifier"; "name"; "url"; "description"; "namespace"]
  | FetchMergeRequests =>
      ["identifier"; "title"; "status"; "author"; "createdAt"; "updatedAt";
       "mergedAt"; "link"; "reviewers"]
  | FetchIssues =>
      ["identifier"; "title"; "status"; "author"; "createdAt"; "updatedAt";
       "closedAt"; "link"; "labels"]
  end.

(** The effects a handler holding [bearer] as its token and [period] as its
    rate-limit period may perform. *)
Definition authorized (bearer : string) (period : Z) (e : event) : Prop :=
  match e with
  | Get rq =>
      headers rq = [("Authorization", ("Bearer " ++ bearer)%string)] /\
      timeout rq = 30
  | Sleep seconds => seconds = period
  end.

(** The upstream field behind each canonical field that the mappings of
    projects, merge requests and issues read by subscript. *)
Definition mapping (k : kind) : list (string * list string) :=
  match k with
  | Project =>
      [("identifier", ["id"]); ("name", ["name"]); ("url", ["web_url"]);
       ("description", ["description"])]
  | MergeRequest | Issue =>
      [("identifier", ["id"]); ("title", ["title"]); ("status", ["state"]);
       ("author", ["author"; "username"]); ("createdAt", ["created_at"]);
       ("updatedAt", ["updated_at"]); ("link", ["web_url"])]
  end.

(** The canonical fields read with [get]: the upstream field behind each
    and the value it defaults to. *)
Definition optional_of (op : operation)
  : list (string * list string * value) :=
  match op with
  | FetchGroups =>
      [("description", ["description"], VNone);
       ("visibility", ["visibility"], VNone)]
  | FetchProjects => [("namespace", ["namespace"; "full_path"], VNone)]
  | FetchMergeRequests => [("mergedAt", ["merged_at"], VNone)]
  | FetchIssues =>
      [("closedAt", ["closed_at"], VNone); ("labels", ["labels"], VList [])]
  end.

(** *** The webhook *)

(** The arguments of one [http_async_client.post] call. *)
Record PostRequest : Type := {
  post_url : string;
  post_json : value;
  post_headers : list (string * string);
  post_timeout : Z
}.

(** The effects of [setup_webhook]: the request and the log records, which
    are all that tells a caller whether the registration succeeded. *)
Inductive hook_event : Type :=
| Post (rq : PostRequest)
| LogInfo (message : string)
| LogError (message : string) (cause : exn).

Definition Hook (U A : Type) : Type := U -> result A * U * list hook_event.

Definition hbind {U A B : Type} (m : Hook U A) (k : A -> Hook U B)
  : Hook U B :=
  fun u =>
    match m u with
    | (Ok a, u1, evs) =>
        match k a u1 with (r, u2, evs') => (r, u2, evs ++ evs') end
    | (Raise e, u1, evs) => (Raise e, u1, evs)
    end.

(** [try: body except Exception as e: handler]. *)
Definition try_except {U A : Type} (body : Hook U A)
    (handler : exn -> Hook U A) : Hook U A :=
  fun u =>
    match body u with
    | (Ok a, u1, evs) => (Ok a, u1, evs)
    | (Raise e, u1, evs) =>
        match handler e u1 with (r, u2, evs') => (r, u2, evs ++ evs') end
    end.

Definition log_info {U : Type} (message : string) : Hook U unit :=
  fun u => (Ok tt, u, [LogInfo message]).

Definition log_error {U : Type} (message : string) (cause : exn)
  : Hook U unit :=
  fun u => (Ok tt, u, [LogError message cause]).

Definition post {U : Type}
    (http_post : PostRequest -> U -> option Response * U)
    (rq : PostRequest) : Hook U Response :=
  fun u =>
    match http_post rq u with
    | (Some r, u') => (Ok r, u', [Post rq])
    | (None, u') => (Raise TimeoutException, u', [Post rq])
    end.

Definition webhook_payload (WEBHOOK_URL : option string) : value :=
  VDict [("url", match WEBHOOK_URL with Some s => VStr s | None => VNone end);
         ("enable_ssl_verification", VBool true);
         ("push_events", VBool true);
         ("merge_requests_events", VBool true);
         ("issues_events", VBool true);
         ("note_events", VBool true);
         ("tag_push_events", VBool true);
         ("wiki_page_events", VBool true);
         ("pipeline_events", VBool true);
         ("job_events", VBool true);
         ("deployment_events", VBool true)].

Definition webhook_request (WEBHOOK_URL : option string)
    (self : GitLabHandler) : PostRequest :=
  {| post_url := (fmt (api_url self) ++ "/hooks")%string;
     post_json := webhook_payload WEBHOOK_URL;
     post_headers :=
       [("Authorization", ("Bearer " ++ fmt (token self))%string)];
     post_timeout := 30 |}.

(** [GitLabHandler.setup_webhook] (lines 141-165). *)
Definition setup_webhook {U : Type}
    (http_post : PostRequest -> U -> option Response * U)
    (WEBHOOK_URL : option string) (self : GitLabHandler) : Hook U unit :=
  hbind (log_info
           "Setting up instance-level webhook for all GitLab resources...")
    (fun _ =>
       try_except
         (hbind (post http_post (webhook_request WEBHOOK_URL self))
            (fun response =>
               hbind (fun u => (raise_for_status response, u, []))
                 (fun _ => log_info "Instance-level webhook setup complete.")))
         (fun e =>
            log_error "Failed to set up instance-level webhook: " e)).

(** *** Further sample data *)

Definition first_page : throttled :=
  ([], {| status := 200;
          records := [project_record 1 "a"; project_record 2 "b"];
          next_page := Some "2" |}).

Definition server_error : Response :=
  {| status_code := 500; json := None; x_next_page := None |}.

Definition undecodable : Response :=
  {| status_code := 200; json := None; x_next_page := None |}.

Definition error_object : Response :=
  {| status_code := 200;
     json := Some (VDict [("message", VStr "404 Not found")]);
     x_next_page := None |}.

Definition always_throttled (rq : Request) : option Response :=
  Some too_many_requests.

Definition group_without_count : value :=
  VDict [("id", VInt 3); ("name", VStr "C");
         ("web_url", VStr "https://gitlab.example/groups/C")].

Definition group_without_name : value :=
  VDict [("id", VInt 4);
         ("web_url", VStr "https://gitlab.example/groups/D")].

Definition broken_groups (rq : Request) : option Response :=
  Some (single_page [group_record 1 "A" 0; group_without_name]).

Definition reviewed_merge_request : value :=
  VDict [("id", VInt 5); ("title", VStr "Fix"); ("state", VStr "merged");
         ("author", VDict [("username", VStr "alice")]);
         ("created_at", VStr "2024-01-01"); ("updated_at", VStr "2024-01-02");
         ("merged_at", VStr "2024-01-03");
         ("web_url", VStr "https://gitlab.example/mr");
         ("reviewers", VList [VDict [("username", VStr "bob")];
                              VDict [("username", VStr "carol")]])].

Definition project_with_null_namespace : value :=
  VDict [("id", VInt 8); ("name", VStr "p");
         ("web_url", VStr "https://gitlab.example/p");
         ("description", VStr "d"); ("namespace", VNone)].

Definition issue_with_null_author : value :=
  VDict [("id", VInt 9); ("title", VStr "Bug"); ("state", VStr "opened");
         ("author", VNone);
         ("created_at", VStr "2024-01-01"); ("updated_at", VStr "2024-01-02");
         ("web_url", VStr "https://gitlab.example/issue")].

(** * Properties *)

(** ** The iteration bound only cuts computations off *)

Section Approximation.

Context {U : Type}.

Lemma approx_refl {A} (o : outcome U A) : approx o o.
Proof. now right. Qed.

Lemma approx_done {A} (o : outcome U A) r u evs :
  approx (Done r u evs) o -> o = Done r u evs.
Proof. intros [H | H]; [discriminate | now symmetry]. Qed.

Lemma approx_after {A} pre (o1 o2 : outcome U A) :
  approx o1 o2 -> approx (after pre o1) (after pre o2).
Proof. intros [-> | ->]; [now left | now right]. Qed.

Lemma approx_bind {A B} (m m' : M U A) (k k' : A -> M U B) u :
  approx (m u) (m' u) ->
  (forall a u1, approx (k a u1) (k' a u1)) ->
  approx (bind m k u) (bind m' k' u).
Proof.
  unfold bind. intros [H | H] Hk; rewrite H.
  - now left.
  - destruct (m' u) as [[a | e] u1 evs | ].
    + now apply approx_after.
    + apply approx_refl.
    + apply approx_refl.
Qed.

Lemma approx_trans {A} (o1 o2 o3 : outcome U A) :
  approx o1 o2 -> approx o2 o3 -> approx o1 o3.
Proof. intros [-> | ->]; [now left | auto]. Qed.

Variable http_get : Request -> U -> option Response * U.
Variable container_str : value -> string.
Variable self : GitLabHandler.

Lemma request_loop_S endpoint params fuel url all_data :
  request_loop http_get self endpoint params (S fuel) url all_data =
  if truthy_str url then
    (response <- get http_get self (fmt url) params ;;
     if (status_code response =? 429)%Z then
       (_ <- sleep (rate_limit_period self) ;;
        request_loop http_get self endpoint params fuel url all_data)
     else
       (_ <- lift (raise_for_status response) ;;
        data <- lift (response_json response) ;;
        items <- lift (py_iter data) ;;
        request_loop http_get self endpoint params fuel
          (if truthy_str (x_next_page response)
           then Some (page_url self endpoint (fmt (x_next_page response)))
           else None)
          (all_data ++ items)))%io
  else ret all_data.
Proof. reflexivity. Qed.

Lemma request_loop_step endpoint params fuel :
  forall url all_data u,
    approx (request_loop http_get self endpoint params fuel url all_data u)
           (request_loop http_get self endpoint params (S fuel) url all_data u).
Proof.
  induction fuel as [| fuel IH]; intros url all_data u.
  - now left.
  - rewrite (request_loop_S _ _ fuel), (request_loop_S _ _ (S fuel)).
    destruct (truthy_str url); [| apply approx_refl].
    apply approx_bind; [apply approx_refl |].
    intros response u1.
    destruct (status_code response =? 429)%Z.
    + apply approx_bind; [apply approx_refl | intros; apply IH].
    + repeat (apply approx_bind; [apply approx_refl | intros]).
      apply IH.
Qed.

Lemma fuel_monotone {A} (run : nat -> M U A) :
  (forall fuel u, approx (run fuel u) (run (S fuel) u)) ->
  forall fuel fuel' u, (fuel <= fuel')%nat -> approx (run fuel u) (run fuel' u).
Proof.
  intros Hstep fuel fuel' u Hle.
  induction Hle as [| fuel' _ IH]; [apply approx_refl |].
  eapply approx_trans; [exact IH | apply Hstep].
Qed.

Lemma groups_loop_approx (rec1 rec2 : value -> M U (list value)) :
  (forall id u, approx (rec1 id u) (rec2 id u)) ->
  forall data all_groups u,
    approx (groups_loop rec1 data all_groups u)
           (groups_loop rec2 data all_groups u).
Proof.
  intros Hrec data.
  induction data as [| group rest IH]; intros all_groups u; simpl.
  - apply approx_refl.
  - apply approx_bind; [apply approx_refl | intros entity u1].
    apply approx_bind; [apply approx_refl | intros recursing u2].
    destruct recursing; [| apply IH].
    apply approx_bind; [apply approx_refl | intros id u3].
    apply approx_bind; [apply Hrec | intros; apply IH].
Qed.

Lemma fetch_groups_step depth :
  forall fuel parent_id u,
    approx (fetch_groups http_get container_str self depth fuel parent_id u)
           (fetch_groups http_get container_str self depth (S fuel)
              parent_id u).
Proof.
  induction depth as [| depth IH]; intros fuel parent_id u.
  - apply approx_refl.
  - change (approx
      (bind (rate_limited_request http_get self fuel
               (groups_endpoint container_str parent_id) None)
            (fun data => groups_loop
               (fetch_groups http_get container_str self depth fuel) data [])
            u)
      (bind (rate_limited_request http_get self (S fuel)
               (groups_endpoint container_str parent_id) None)
            (fun data => groups_loop
               (fetch_groups http_get container_str self depth (S fuel))
               data [])
            u)).
    apply approx_bind.
    + apply request_loop_step.
    + intros data u1. apply groups_loop_approx. intros id u2. apply IH.
Qed.

End Approximation.

(** ** Running against what the upstream serves *)

Section Runs.

Context {U : Type}.
Variable http_get : Request -> U -> option Response * U.
Variable container_str : value -> string.
Variable self : GitLabHandler.

Lemma truthy_nonempty (s : string) : s <> "" -> truthy_str (Some s) = true.
Proof.
  intros Hs. simpl. destruct (String.eqb_spec s ""); [contradiction | reflexivity].
Qed.

Lemma delivers_not_429 r items :
  delivers r items -> (status_code r =? 429)%Z = false.
Proof.
  intros [Hs _]. unfold raise_for_status in Hs.
  destruct ((200 <=? status_code r) && (status_code r <=? 299))%Z eqn:E;
    [| discriminate].
  apply andb_prop in E. destruct E as [_ E].
  apply Z.leb_le in E. apply Z.eqb_neq. lia.
Qed.

Lemma listing_nonempty endpoint params u url items evs u' :
  listing http_get self endpoint params u url items evs u' ->
  (1 <= List.length evs)%nat.
Proof. destruct 1; simpl; lia. Qed.

Lemma get_answered url params u r u1 :
  http_get (request self url params) u = (Some r, u1) ->
  get http_get self url params u = Done (Ok r) u1 [Get (request self url params)].
Proof. intros H. unfold get. now rewrite H. Qed.

Lemma listing_run endpoint params u url items evs u' :
  listing http_get self endpoint params u url items evs u' ->
  forall fuel all_data,
    (List.length evs < fuel)%nat ->
    request_loop http_get self endpoint params fuel (Some url) all_data u =
    Done (Ok (all_data ++ items)) u' evs.
Proof.
  induction 1 as [u url r u1 items evs u' Hurl Hget H429 _ IH
                 |u url r u' items Hurl Hget Hok Hnext
                 |u url r u1 items items' evs u' Hurl Hget Hok Hnext _ IH];
    intros fuel all_data Hfuel;
    (destruct fuel as [| fuel]; [simpl in Hfuel; lia |]);
    rewrite request_loop_S, (truthy_nonempty _ Hurl);
    unfold bind at 1; simpl fmt; rewrite (get_answered _ _ _ _ _ Hget).
  - rewrite H429. change (429 =? 429)%Z with true. cbv beta iota.
    unfold bind, sleep. rewrite IH by (simpl in Hfuel; lia). reflexivity.
  - rewrite (delivers_not_429 _ _ Hok). cbv beta iota.
    destruct Hok as (Hs & data & Hj & Hi).
    unfold bind, lift, response_json. rewrite Hs, Hj, Hi, Hnext.
    destruct fuel as [| fuel]; [simpl in Hfuel; lia |]. reflexivity.
  - rewrite (delivers_not_429 _ _ Hok). cbv beta iota.
    destruct Hok as (Hs & data & Hj & Hi).
    unfold bind, lift, response_json. rewrite Hs, Hj, Hi, Hnext.
    rewrite IH by (simpl in Hfuel; lia).
    simpl. now rewrite app_assoc.
Qed.

Lemma fetch_groups_S depth fuel parent_id :
  fetch_groups http_get container_str self (S depth) fuel parent_id =
  (data <- rate_limited_request http_get self fuel
             (groups_endpoint container_str parent_id) None ;;
   groups_loop (fetch_groups http_get container_str self depth fuel)
     data [])%io.
Proof. reflexivity. Qed.

Lemma groups_loop_cons recurse group rest all_groups :
  groups_loop recurse (group :: rest) all_groups =
  (entity <- lift (U := U) (Normalize.group group) ;;
   recursing <- lift (has_subgroups group) ;;
   if (recursing : bool) then
     (id <- lift (subscript group "id") ;;
      subgroups <- recurse id ;;
      groups_loop recurse rest ((all_groups ++ [entity]) ++ subgroups))
   else groups_loop recurse rest (all_groups ++ [entity]))%io.
Proof. reflexivity. Qed.

Lemma canonical_ok g entity : Normalize.group g = Ok entity -> canonical g = entity.
Proof. intros H. unfold canonical. now rewrite H. Qed.

Lemma nesting_leaf g subs :
  has_subgroups g = Ok false -> nesting (Node g subs) = 0%nat.
Proof. intros H. simpl. now rewrite H. Qed.

Lemma nesting_inner g subs :
  has_subgroups g = Ok true -> nesting (Node g subs) = depth_needed subs.
Proof. intros H. simpl. now rewrite H. Qed.

Lemma after_nil {A} (o : outcome U A) : after [] o = o.
Proof. now destruct o. Qed.

Lemma groups_loop_leaf recurse g entity rest all_groups (u : U) :
  Normalize.group g = Ok entity ->
  has_subgroups g = Ok false ->
  groups_loop recurse (g :: rest) all_groups u =
  groups_loop recurse rest (all_groups ++ [entity]) u.
Proof.
  intros Hg Hleaf. rewrite groups_loop_cons.
  unfold bind at 1, lift at 1. rewrite Hg.
  unfold bind at 1, lift at 1. rewrite Hleaf.
  now rewrite !after_nil.
Qed.

Lemma groups_loop_inner recurse g entity id rest all_groups (u : U) :
  Normalize.group g = Ok entity ->
  has_subgroups g = Ok true ->
  subscript g "id" = Ok id ->
  groups_loop recurse (g :: rest) all_groups u =
  (subgroups <- recurse id ;;
   groups_loop recurse rest ((all_groups ++ [entity]) ++ subgroups))%io u.
Proof.
  intros Hg Hinner Hid. rewrite groups_loop_cons.
  unfold bind at 1, lift at 1. rewrite Hg.
  unfold bind at 1, lift at 1. rewrite Hinner.
  unfold bind at 1, lift at 1. rewrite Hid.
  now rewrite !after_nil.
Qed.

Lemma serves_outcome u parent_id ts evs u' :
  serves http_get container_str self u parent_id ts evs u' ->
  forall depth fuel,
    (List.length evs < fuel)%nat ->
    ((depth_needed ts <= depth)%nat ->
     fetch_groups http_get container_str self depth fuel parent_id u =
     Done (Ok (map canonical (flat_map preorder ts))) u' evs)
    /\ ((depth < depth_needed ts)%nat ->
        exists u'' evs'',
          fetch_groups http_get container_str self depth fuel parent_id u =
          Done (Raise RecursionError) u'' evs'').
Proof.
  intros Hserves.
  induction Hserves using serves_ind2 with
    (P0 := fun u ts evs u' =>
       forall depth fuel all_groups,
         (List.length evs < fuel)%nat ->
         ((list_max (map nesting ts) <= depth)%nat ->
          groups_loop (fetch_groups http_get container_str self depth fuel)
            (map root ts) all_groups u =
          Done (Ok (all_groups ++ map canonical (flat_map preorder ts)))
            u' evs)
         /\ ((depth < list_max (map nesting ts))%nat ->
             exists u'' evs'',
               groups_loop (fetch_groups http_get container_str self depth fuel)
                 (map root ts) all_groups u =
               Done (Raise RecursionError) u'' evs'')).
  - intros depth fuel Hfuel. rewrite length_app in Hfuel.
    unfold depth_needed.
    destruct depth as [| depth].
    + split; [lia | intros _]. exists u, []. reflexivity.
    + rewrite fetch_groups_S. unfold bind, rate_limited_request.
      rewrite (listing_run _ _ _ _ _ _ _ H) by lia.
      cbv beta iota. simpl app.
      destruct (IHHserves depth fuel [] ltac:(lia)) as [Hok Hover].
      split; intros Hdepth.
      * rewrite Hok by lia. reflexivity.
      * destruct Hover as (u'' & evs'' & ->); [lia |].
        eexists _, _. reflexivity.
  - intros depth fuel all_groups _. split; [intros _ | simpl; lia].
    simpl. now rewrite app_nil_r.
  - intros depth fuel all_groups Hfuel.
    change (map nesting (Node g subs :: ts))
      with (nesting (Node g subs) :: map nesting ts).
    rewrite (nesting_leaf g subs H0). simpl list_max.
    change (map root (Node g subs :: ts)) with (g :: map root ts).
    rewrite (groups_loop_leaf _ g entity _ _ _ H H0).
    destruct (IHHserves depth fuel (all_groups ++ [entity]) Hfuel)
      as [Hok Hover].
    split; intros Hdepth.
    + rewrite Hok by exact Hdepth.
      simpl. rewrite H0, (canonical_ok _ _ H), <- app_assoc. reflexivity.
    + exact (Hover Hdepth).
  - intros depth fuel all_groups Hfuel. rewrite length_app in Hfuel.
    change (map nesting (Node g subs :: ts))
      with (nesting (Node g subs) :: map nesting ts).
    rewrite (nesting_inner g subs H0).
    change (list_max (depth_needed subs :: map nesting ts))
      with (Nat.max (depth_needed subs) (list_max (map nesting ts))).
    change (map root (Node g subs :: ts)) with (g :: map root ts).
    rewrite (groups_loop_inner _ g entity id _ _ _ H H0 H1).
    unfold bind.
    destruct (IHHserves depth fuel ltac:(lia)) as [Hsub Hsubover].
    destruct (IHHserves0 depth fuel
                ((all_groups ++ [entity])
                 ++ map canonical (flat_map preorder subs)) ltac:(lia))
      as [Hok Hover].
    split; intros Hdepth.
    + rewrite Hsub by lia. rewrite Hok by lia.
      simpl. rewrite H0, (canonical_ok _ _ H), map_app, <- !app_assoc.
      reflexivity.
    + destruct (Nat.le_gt_cases (depth_needed subs) depth) as [Hle | Hgt].
      * rewrite Hsub by exact Hle.
        destruct Hover as (u'' & evs'' & ->); [lia |].
        eexists _, _. reflexivity.
      * destruct (Hsubover Hgt) as (u'' & evs'' & ->).
        eexists _, _. reflexivity.
Qed.

Lemma serves_run u parent_id ts evs u' :
  serves http_get container_str self u parent_id ts evs u' ->
  forall depth fuel,
    (depth_needed ts <= depth)%nat ->
    (List.length evs < fuel)%nat ->
    fetch_groups http_get container_str self depth fuel parent_id u =
    Done (Ok (map canonical (flat_map preorder ts))) u' evs.
Proof.
  intros Hserves depth fuel Hdepth Hfuel.
  now apply (serves_outcome u parent_id ts evs u' Hserves depth fuel Hfuel).
Qed.

End Runs.

(** ** Paginated fetches against a scripted upstream *)

Section Scripts.

Variable self : GitLabHandler.
Variables (endpoint : string) (params : query).

Lemma append_nonempty (a b : string) : b <> "" -> (a ++ b)%string <> "".
Proof.
  intros Hb. destruct a as [| c a]; simpl; [exact Hb | discriminate].
Qed.

Lemma page_url_nonempty tok : page_url self endpoint tok <> "".
Proof.
  unfold page_url. do 2 apply append_nonempty. discriminate.
Qed.

Lemma first_url_nonempty :
  endpoint <> "" -> (fmt (api_url self) ++ endpoint)%string <> "".
Proof. apply append_nonempty. Qed.

Lemma page_delivers p :
  successful p -> delivers (page_response p) (records p).
Proof.
  intros [Hlo Hhi]. split.
  - unfold raise_for_status. simpl.
    apply Z.leb_le in Hlo. apply Z.leb_le in Hhi. now rewrite Hlo, Hhi.
  - exists (VList (records p)). split; reflexivity.
Qed.

Lemma script_listing tps :
  forall url rest,
    url <> "" ->
    Forall (fun tp => rejections tp /\ successful (snd tp)) tps ->
    continued (map snd tps) ->
    listing scripted self endpoint params (script_of tps ++ rest) url
      (List.concat (map (fun tp => records (snd tp)) tps))
      (exchange self endpoint params url tps) rest.
Proof.
  induction tps as [| [rej p] tps IH]; intros url rest Hurl Hok Hcont.
  - destruct Hcont.
  - inversion Hok as [| ? ? [Hrej Hp] Hok']; subst. clear Hok.
    unfold rejections in Hrej. simpl in Hrej, Hp.
    simpl script_of. simpl exchange. simpl List.concat.
    induction rej as [| r rej IHrej].
    + simpl. destruct tps as [| tp tps].
      * simpl in Hcont. simpl. rewrite app_nil_r.
        eapply listing_last; eauto using page_delivers. reflexivity.
      * destruct Hcont as [Hnext Hcont].
        eapply listing_next; eauto using page_delivers.
        -- reflexivity.
        -- apply IH; auto using page_url_nonempty.
    + inversion Hrej; subst.
      simpl. eapply listing_retry; eauto. reflexivity.
Qed.

Lemma script_request tps url0 rest fuel :
  url0 = (fmt (api_url self) ++ endpoint)%string ->
  url0 <> "" ->
  Forall (fun tp => rejections tp /\ successful (snd tp)) tps ->
  continued (map snd tps) ->
  (List.length (exchange self endpoint params url0 tps) < fuel)%nat ->
  rate_limited_request scripted self fuel endpoint params
    (script_of tps ++ rest)
  = Done (Ok (List.concat (map (fun tp => records (snd tp)) tps))) rest
      (exchange self endpoint params url0 tps).
Proof.
  intros -> Hurl Hok Hcont Hfuel. unfold rate_limited_request.
  now rewrite (listing_run _ _ _ _ _ _ _ _ _
                 (script_listing tps _ rest Hurl Hok Hcont) fuel [] Hfuel).
Qed.

Lemma exchange_unthrottled url pages :
  List.length (exchange self endpoint params url (map (pair []) pages)) =
  List.length pages.
Proof.
  revert url. induction pages as [| p pages IH]; intros url; simpl; auto.
Qed.

Lemma script_unthrottled pages :
  script_of (map (pair []) pages) = map page_response pages.
Proof.
  induction pages as [| p pages IH]; simpl; [reflexivity | now rewrite IH].
Qed.

End Scripts.

(** C1. For every sequence of successful pages returned by the upstream,
    each a list of records with an optional next-page header, where every
    page but the last announces a next page, [_rate_limited_request]
    returns the records of all the pages, each exactly once, in page order,
    the pages concatenated in the order they were requested.  Responses
    scripted after the last page are left unread. *)
Theorem paginated_fetch_concatenates_pages :
  forall (self : GitLabHandler) (endpoint : string) (caller_params : query)
         (pages : list page) (rest : list Response) (fuel : nat),
    (fmt (api_url self) ++ endpoint)%string <> "" ->
    Forall successful pages ->
    continued pages ->
    (List.length pages < fuel)%nat ->
    exists evs,
      rate_limited_request scripted self fuel endpoint caller_params
        (map page_response pages ++ rest)
      = Done (Ok (List.concat (map records pages))) rest evs.
Proof.
  intros self endpoint caller_params pages rest fuel Hurl Hok Hcont Hfuel.
  exists (exchange self endpoint caller_params
            (fmt (api_url self) ++ endpoint)%string (map (pair []) pages)).
  rewrite <- script_unthrottled.
  replace (map records pages)
    with (map (fun tp : throttled => records (snd tp)) (map (pair []) pages))
    by (rewrite map_map; reflexivity).
  apply script_request; [reflexivity | exact Hurl | | |].
  - apply Forall_map. eapply Forall_impl; [| exact Hok].
    intros p Hp. split; [constructor | exact Hp].
  - rewrite map_map. simpl. now rewrite map_id.
  - now rewrite exchange_unthrottled.
Qed.

(** C2. When requests are rejected with status 429 and the retry of the
    same request is eventually answered with a 2xx page,
    [_rate_limited_request] returns the records of all the pages and no
    exception: after each rejection it sleeps for the configured period and
    repeats the same request, and the records accumulated from earlier
    pages are kept. *)
Theorem rate_limit_is_absorbed :
  forall (self : GitLabHandler) (endpoint : string) (caller_params : query)
         (tps : list throttled) (rest : list Response) (fuel : nat),
    (fmt (api_url self) ++ endpoint)%string <> "" ->
    Forall (fun tp => rejections tp /\ successful (snd tp)) tps ->
    continued (map snd tps) ->
    (List.length (exchange self endpoint caller_params
                    (fmt (api_url self) ++ endpoint)%string tps) < fuel)%nat ->
    rate_limited_request scripted self fuel endpoint caller_params
      (script_of tps ++ rest)
    = Done (Ok (List.concat (map (fun tp => records (snd tp)) tps))) rest
        (exchange self endpoint caller_params
           (fmt (api_url self) ++ endpoint)%string tps).
Proof.
  intros self endpoint caller_params tps rest fuel Hurl Hok Hcont Hfuel.
  now apply script_request.
Qed.

(** ** The shape of the requests *)

Section Emits.

Context {U : Type}.
Variable P : event -> Prop.

Lemma emits_after {A} pre (o : outcome U A) :
  Forall P pre -> emits P o -> emits P (after pre o).
Proof.
  intros Hpre Ho. destruct o; simpl in *; [| exact I].
  apply Forall_app. now split.
Qed.

Lemma emits_bind {A B} (m : M U A) (k : A -> M U B) u :
  emits P (m u) -> (forall a u1, emits P (k a u1)) -> emits P (bind m k u).
Proof.
  intros Hm Hk. unfold bind.
  destruct (m u) as [[a | e] u1 evs | ]; simpl in *; auto.
  now apply emits_after.
Qed.

Lemma emits_lift {A} (r : result A) (u : U) : emits P (lift r u).
Proof. constructor. Qed.

End Emits.

Lemma request_loop_shape {U : Type}
    (http_get : Request -> U -> option Response * U) self endpoint
    caller_params fuel :
  forall url all_data u,
    (truthy_str url = true ->
     fmt url = (fmt (api_url self) ++ endpoint)%string \/
     exists next, next <> "" /\ fmt url = page_url self endpoint next) ->
    emits (request_shape self endpoint caller_params)
      (request_loop http_get self endpoint caller_params fuel url all_data u).
Proof.
  induction fuel as [| fuel IH]; intros url all_data u Hurl; [exact I |].
  rewrite request_loop_S.
  destruct (truthy_str url) eqn:Etruthy; [| constructor].
  specialize (Hurl eq_refl).
  apply emits_bind.
  - unfold get.
    destruct (http_get (request self (fmt url) caller_params) u) as [[r |] u1];
      simpl; (constructor; [split; [reflexivity | exact Hurl] | constructor]).
  - intros response u1.
    destruct (status_code response =? 429)%Z.
    + apply emits_bind.
      * simpl. constructor; [reflexivity | constructor].
      * intros _ u2. apply IH. intros _. exact Hurl.
    + repeat (apply emits_bind; [apply emits_lift | intros]).
      apply IH.
      destruct (truthy_str (x_next_page response)) eqn:Enext;
        [| discriminate].
      intros _. right. exists (fmt (x_next_page response)). split.
      * destruct (x_next_page response) as [s |]; [| discriminate].
        simpl in *. destruct (String.eqb_spec s ""); [discriminate | assumption].
      * reflexivity.
Qed.

(** C5, as the client behaves: every request of a paginated fetch, the
    first one and every follow-up, is issued with the caller's query
    parameters unchanged; a follow-up request targets the endpoint with
    [?page=] and the announced page number appended. *)
Theorem every_request_carries_caller_params :
  forall (U : Type) (http_get : Request -> U -> option Response * U)
         (self : GitLabHandler) (endpoint : string) (caller_params : query)
         (fuel : nat) (u : U) r u' evs,
    rate_limited_request http_get self fuel endpoint caller_params u
      = Done r u' evs ->
    Forall (request_shape self endpoint caller_params) evs.
Proof.
  intros U http_get self endpoint caller_params fuel u r u' evs Hrun.
  pose proof (request_loop_shape http_get self endpoint caller_params fuel
                (Some (fmt (api_url self) ++ endpoint)%string) [] u) as H.
  unfold rate_limited_request in Hrun. rewrite Hrun in H. apply H.
  intros _. now left.
Qed.

(** ** Group enumeration *)

Section Hierarchy.

Context {U : Type}.
Variable http_get : Request -> U -> option Response * U.
Variable container_str : value -> string.
Variable self : GitLabHandler.

Lemma visited_block ts t :
  visited ts t ->
  exists before after, flat_map preorder ts = before ++ preorder t ++ after.
Proof.
  induction 1 as [t Hin | g subs t _ IH Hsub Hin].
  - apply in_split in Hin. destruct Hin as (l1 & l2 & ->).
    exists (flat_map preorder l1), (flat_map preorder l2).
    now rewrite flat_map_app.
  - destruct IH as (before & after & IH).
    apply in_split in Hin. destruct Hin as (l1 & l2 & ->).
    exists (before ++ g :: flat_map preorder l1),
           (flat_map preorder l2 ++ after).
    rewrite IH. simpl. rewrite Hsub, flat_map_app. simpl.
    now rewrite <- !app_assoc.
Qed.

Lemma listing_shape endpoint caller_params u url0 items evs u' :
  url0 = (fmt (api_url self) ++ endpoint)%string ->
  listing http_get self endpoint caller_params u url0 items evs u' ->
  Forall (request_shape self endpoint caller_params) evs.
Proof.
  intros -> Hl.
  pose proof (request_loop_shape http_get self endpoint caller_params
                (S (List.length evs))
                (Some (fmt (api_url self) ++ endpoint)%string) [] u) as H.
  rewrite (listing_run _ _ _ _ _ _ _ _ _ Hl) in H by lia.
  apply H. intros _. now left.
Qed.

Lemma fetched_under_cons g subs ts :
  fetched_under (Node g subs :: ts) =
  match has_subgroups g with
  | Ok true =>
      match subscript g "id" with Ok id => [id] | Raise _ => [] end
      ++ fetched_under subs
  | _ => []
  end ++ fetched_under ts.
Proof.
  unfold fetched_under. simpl.
  destruct (has_subgroups g) as [[|] |]; simpl; try reflexivity.
  rewrite flat_map_app.
  destruct (subscript g "id"); simpl; now rewrite <- ?app_assoc.
Qed.

Lemma serves_requests u parent_id ts evs u' :
  serves http_get container_str self u parent_id ts evs u' ->
  Forall (fun e => exists p,
            In p (parent_id :: fetched_under ts) /\
            request_shape self (groups_endpoint container_str p) None e) evs.
Proof.
  intros Hserves.
  induction Hserves using serves_ind2 with
    (P0 := fun u ts evs u' =>
       Forall (fun e => exists p,
                 In p (fetched_under ts) /\
                 request_shape self (groups_endpoint container_str p) None e)
              evs).
  - apply Forall_app. split.
    + eapply Forall_impl; [| eapply listing_shape; [reflexivity | eassumption]].
      intros e He. exists parent_id. split; [now left | exact He].
    + eapply Forall_impl; [| exact IHHserves].
      intros e (p & Hp & He). exists p. split; [now right | exact He].
  - constructor.
  - rewrite fetched_under_cons, H0. exact IHHserves.
  - rewrite fetched_under_cons, H0, H1.
    apply Forall_app. split.
    + eapply Forall_impl; [| exact IHHserves].
      intros e (p & Hp & He). exists p. split; [| exact He].
      apply in_or_app. left. exact Hp.
    + eapply Forall_impl; [| exact IHHserves0].
      intros e (p & Hp & He). exists p. split; [| exact He].
      apply in_or_app. now right.
Qed.

Lemma flat_map_block ts :
  flat_map block ts = map canonical (flat_map preorder ts).
Proof.
  induction ts as [| t ts IH]; simpl; [reflexivity |].
  now rewrite map_app, IH.
Qed.

End Hierarchy.

(** C3. When the upstream serves a group hierarchy whose nesting the
    interpreter's recursion limit allows, [fetch_groups] returns the
    canonical records in depth-first pre-order: the output is the
    pre-order of the forest, so that every group reached by the traversal
    heads a contiguous block made of its own record followed by the records
    of its descendants; and every request issued lists either the starting
    parent or the subgroups of a group whose subgroup count is positive. *)
Theorem fetch_groups_is_preorder :
  forall (U : Type) (http_get : Request -> U -> option Response * U)
         (container_str : value -> string) (self : GitLabHandler)
         (u : U) (parent_id : value) (ts : list gtree) evs (u' : U)
         (depth fuel : nat),
    serves http_get container_str self u parent_id ts evs u' ->
    (depth_needed ts <= depth)%nat ->
    (List.length evs < fuel)%nat ->
    fetch_groups http_get container_str self depth fuel parent_id u
      = Done (Ok (flat_map block ts)) u' evs
    /\ (forall t, visited ts t ->
          exists before after,
            flat_map block ts =
            before ++ canonical (root t) :: map canonical (below t) ++ after)
    /\ Forall (fun e => exists p,
                 In p (parent_id :: fetched_under ts) /\
                 request_shape self (groups_endpoint container_str p) None e)
              evs.
Proof.
  intros U http_get container_str self u parent_id ts evs u' depth fuel
         Hs Hdepth Hfuel.
  split; [| split].
  - rewrite flat_map_block. now apply serves_run.
  - intros t Ht. destruct (visited_block ts t Ht) as (before & after & Heq).
    exists (map canonical before), (map canonical after).
    rewrite flat_map_block, Heq, !map_app. unfold block.
    destruct t as [g subs]. reflexivity.
  - exact (serves_requests http_get container_str self u parent_id ts evs u' Hs).
Qed.

Section RecursionLimit.

Context {U : Type}.
Variable http_get : Request -> U -> option Response * U.
Variable container_str : value -> string.
Variable self : GitLabHandler.

Lemma request_settles fuel endpoint q (u : U) r u' evs :
  rate_limited_request http_get self fuel endpoint q u = Done r u' evs ->
  forall fuel', (fuel <= fuel')%nat ->
    rate_limited_request http_get self fuel' endpoint q u = Done r u' evs.
Proof.
  intros Hrun fuel' Hle.
  pose proof (fuel_monotone
                (fun f => rate_limited_request http_get self f endpoint q)
                (fun f u0 => request_loop_step http_get self endpoint q f
                               _ _ u0)
                fuel fuel' u Hle) as Happrox.
  simpl in Happrox. rewrite Hrun in Happrox. now apply approx_done.
Qed.

Lemma groups_loop_settles (recurse : nat -> value -> M U (list value)) :
  (forall id u, exists bound r u' evs,
      forall fuel, (bound <= fuel)%nat -> recurse fuel id u = Done r u' evs) ->
  forall data all_groups u,
  exists bound r u' evs,
    forall fuel, (bound <= fuel)%nat ->
      groups_loop (recurse fuel) data all_groups u = Done r u' evs.
Proof.
  intros Hrec data.
  induction data as [| g rest IH]; intros all_groups u.
  - exists 0%nat, (Ok all_groups), u, []. reflexivity.
  - destruct (Normalize.group g) as [entity | e] eqn:Hg.
    2:{ exists 0%nat, (Raise e), u, []. intros fuel _.
        rewrite groups_loop_cons. unfold bind, lift. now rewrite Hg. }
    destruct (has_subgroups g) as [[|] | e] eqn:Hsub.
    3:{ exists 0%nat, (Raise e), u, []. intros fuel _.
        rewrite groups_loop_cons. unfold bind, lift. now rewrite Hg, Hsub. }
    2:{ destruct (IH (all_groups ++ [entity]) u) as (b & r & u' & evs & Hb).
        exists b, r, u', evs. intros fuel Hfuel.
        rewrite (groups_loop_leaf _ g entity _ _ _ Hg Hsub). now apply Hb. }
    destruct (subscript g "id") as [id | e] eqn:Hid.
    2:{ exists 0%nat, (Raise e), u, []. intros fuel _.
        rewrite groups_loop_cons. unfold bind, lift.
        now rewrite Hg, Hsub, Hid. }
    destruct (Hrec id u) as (b1 & [subgroups | e] & u1 & evs1 & Hb1).
    + destruct (IH ((all_groups ++ [entity]) ++ subgroups) u1)
        as (b2 & r & u' & evs & Hb2).
      exists (Nat.max b1 b2), r, u', (evs1 ++ evs). intros fuel Hfuel.
      rewrite (groups_loop_inner _ g entity id _ _ _ Hg Hsub Hid).
      unfold bind. rewrite Hb1 by lia. rewrite Hb2 by lia. reflexivity.
    + exists b1, (Raise e), u1, evs1. intros fuel Hfuel.
      rewrite (groups_loop_inner _ g entity id _ _ _ Hg Hsub Hid).
      unfold bind. now rewrite Hb1.
Qed.

Lemma fetch_groups_settles :
  (forall p u, exists fuel r u' evs,
      rate_limited_request http_get self fuel
        (groups_endpoint container_str p) None u = Done r u' evs) ->
  forall depth parent_id u,
  exists bound r u' evs,
    forall fuel, (bound <= fuel)%nat ->
      fetch_groups http_get container_str self depth fuel parent_id u
      = Done r u' evs.
Proof.
  intros Hlist depth.
  induction depth as [| depth IH]; intros parent_id u.
  - exists 0%nat, (Raise RecursionError), u, []. reflexivity.
  - destruct (Hlist parent_id u) as (f0 & [data | e] & u0 & evs0 & Hreq).
    + destruct (groups_loop_settles
                  (fetch_groups http_get container_str self depth)
                  IH data [] u0) as (b & r & u' & evs & Hb).
      exists (Nat.max f0 b), r, u', (evs0 ++ evs). intros fuel Hfuel.
      rewrite fetch_groups_S. unfold bind.
      rewrite (request_settles _ _ _ _ _ _ _ Hreq) by lia.
      rewrite Hb by lia. reflexivity.
    + exists f0, (Raise e), u0, evs0. intros fuel Hfuel.
      rewrite fetch_groups_S. unfold bind.
      now rewrite (request_settles _ _ _ _ _ _ _ Hreq).
Qed.

End RecursionLimit.

(** C7, as the client behaves: [fetch_groups] has no depth guard of its own
    and raises no [DepthExceeded]; its recursion ends only at the
    interpreter's recursion limit.  Whatever the hierarchy, a cyclic one
    included, the call finishes as soon as each listing of groups does.
    On a finite hierarchy it returns normally when the nesting of the
    hierarchy is within that limit and ends with [RecursionError] when the
    hierarchy nests deeper. *)
Theorem fetch_groups_ends_at_recursion_limit :
  forall (U : Type) (http_get : Request -> U -> option Response * U)
         (container_str : value -> string) (self : GitLabHandler)
         (depth : nat),
    ((forall p u, exists fuel r u' evs,
         rate_limited_request http_get self fuel
           (groups_endpoint container_str p) None u = Done r u' evs) ->
     forall parent_id u,
     exists bound r u' evs,
       forall fuel, (bound <= fuel)%nat ->
         fetch_groups http_get container_str self depth fuel parent_id u
         = Done r u' evs)
    /\ (forall (u : U) (parent_id : value) (ts : list gtree) evs (u' : U)
               (fuel : nat),
           serves http_get container_str self u parent_id ts evs u' ->
           (List.length evs < fuel)%nat ->
           ((depth_needed ts <= depth)%nat ->
            fetch_groups http_get container_str self depth fuel parent_id u
            = Done (Ok (flat_map block ts)) u' evs)
           /\ ((depth < depth_needed ts)%nat ->
               exists u'' evs'',
                 fetch_groups http_get container_str self depth fuel
                   parent_id u
                 = Done (Raise RecursionError) u'' evs'')).
Proof.
  intros U http_get container_str self depth. split.
  - intros Hlist parent_id u. now apply fetch_groups_settles.
  - intros u parent_id ts evs u' fuel Hs Hfuel.
    rewrite flat_map_block.
    now apply (serves_outcome http_get container_str self u parent_id ts
                 evs u' Hs depth fuel Hfuel).
Qed.

(** ** Record mappings *)

Lemma rbind_ok {A B} (r : result A) (k : A -> result B) b :
  rbind r k = Ok b -> exists a, r = Ok a /\ k a = Ok b.
Proof. destruct r as [a | e]; simpl; [eauto | discriminate]. Qed.

Lemma rbind_raise {A B} (r : result A) (k : A -> result B) e :
  rbind r k = Raise e -> r = Raise e \/ exists a, r = Ok a /\ k a = Raise e.
Proof. destruct r as [a | e']; simpl; [eauto | intros [= ->]; now left]. Qed.

Lemma subscript_field r k v : subscript r k = Ok v <-> field r [k] = Some v.
Proof.
  destruct r; simpl; try (split; discriminate).
  destruct (dict_find d k); split; congruence.
Qed.

Lemma subscript_builtin r k e : subscript r k = Raise e -> builtin e.
Proof.
  unfold builtin.
  destruct r; simpl; try (intros [= <-]; simpl; tauto).
  destruct (dict_find d k); [discriminate | intros [= <-]; simpl; tauto].
Qed.

Lemma py_get_builtin r k default e : py_get r k default = Raise e -> builtin e.
Proof.
  unfold builtin.
  destruct r; simpl; try (intros [= <-]; simpl; tauto).
  destruct (dict_find d k); discriminate.
Qed.

Lemma py_iter_builtin v e : py_iter v = Raise e -> builtin e.
Proof.
  unfold builtin. destruct v; simpl; try discriminate; intros [= <-]; simpl; tauto.
Qed.

Lemma comprehension_raise {A B} (f : A -> result B) xs e :
  comprehension f xs = Raise e -> exists x, In x xs /\ f x = Raise e.
Proof.
  induction xs as [| x xs IH]; simpl; [discriminate |].
  intros H. apply rbind_raise in H. destruct H as [H | (y & Hy & H)].
  - exists x. auto.
  - apply rbind_raise in H. destruct H as [H | (ys & _ & H)]; [| discriminate].
    destruct (IH H) as (x' & Hin & Hx'). exists x'. auto.
Qed.

Lemma comprehension_ok {A B} (f : A -> result B) xs :
  (forall x, In x xs -> exists y, f x = Ok y) ->
  exists ys, comprehension f xs = Ok ys /\ Forall2 (fun x y => f x = Ok y) xs ys.
Proof.
  induction xs as [| x xs IH]; intros Hall; simpl.
  - exists []. split; [reflexivity | constructor].
  - destruct (Hall x (or_introl eq_refl)) as (y & Hy).
    destruct IH as (ys & Hys & Hall2); [intros; apply Hall; now right |].
    exists (y :: ys). rewrite Hy, Hys. split; [reflexivity | now constructor].
Qed.

Lemma comprehension_ok_all {A B} (f : A -> result B) xs ys :
  comprehension f xs = Ok ys -> forall x, In x xs -> exists y, f x = Ok y.
Proof.
  revert ys. induction xs as [| x0 xs IH]; intros ys E x Hin; [destruct Hin |].
  simpl in E. apply rbind_ok in E. destruct E as (y & Hy & E).
  apply rbind_ok in E. destruct E as (ys' & Hys & _).
  destruct Hin as [-> | Hin]; eauto.
Qed.

Lemma comprehension_fails {A B} (f : A -> result B) xs x e :
  In x xs -> f x = Raise e ->
  exists e', comprehension f xs = Raise e' /\
             exists x', In x' xs /\ f x' = Raise e'.
Proof.
  intros Hin Hx.
  destruct (comprehension f xs) as [ys | e'] eqn:E.
  - destruct (comprehension_ok_all f xs ys E x Hin) as (y & Hy). congruence.
  - exists e'. split; [reflexivity |]. now apply comprehension_raise.
Qed.

Ltac invert_ok H :=
  repeat (apply rbind_ok in H;
          let a := fresh "v" in
          let Ha := fresh "Hv" in
          destruct H as (a & Ha & H)).

Ltac invert_raise H :=
  repeat (apply rbind_raise in H; destruct H as [H | (? & _ & H)];
          [eauto using subscript_builtin, py_get_builtin, py_iter_builtin |]).

Lemma normalize_builtin k r e : normalize k r = Raise e -> builtin e.
Proof.
  destruct k; simpl; intros H.
  - unfold Normalize.project in H. invert_raise H. discriminate.
  - unfold Normalize.merge_request in H. invert_raise H; [| discriminate].
    apply comprehension_raise in H. destruct H as (item & _ & H).
    eauto using subscript_builtin.
  - unfold Normalize.issue in H. invert_raise H. discriminate.
Qed.

Lemma field_cons r k path v :
  subscript r k = Ok v -> field r (k :: path) = field v path.
Proof.
  destruct r; simpl; try discriminate.
  destruct (dict_find d k); [intros [= ->]; reflexivity | discriminate].
Qed.

Lemma normalize_ok_required k r entity path :
  normalize k r = Ok entity -> In path (required k) -> field r path <> None.
Proof.
  destruct k; simpl; intros H Hin.
  - unfold Normalize.project in H. invert_ok H.
    repeat (destruct Hin as [<- | Hin];
            [erewrite field_cons by eassumption; discriminate |]).
    destruct Hin.
  - unfold Normalize.merge_request in H. invert_ok H.
    repeat (destruct Hin as [<- | Hin];
            [repeat (erewrite field_cons by eassumption); discriminate |]).
    destruct Hin.
  - unfold Normalize.issue in H. invert_ok H.
    repeat (destruct Hin as [<- | Hin];
            [repeat (erewrite field_cons by eassumption); discriminate |]).
    destruct Hin.
Qed.

Lemma missing_required_raises k r path :
  In path (required k) -> field r path = None ->
  exists e, normalize k r = Raise e /\ builtin e.
Proof.
  intros Hin Hnone.
  destruct (normalize k r) as [entity | e] eqn:E.
  - exfalso. now apply (normalize_ok_required k r entity path E Hin).
  - exists e. split; [reflexivity |]. now apply normalize_builtin with k r.
Qed.

Lemma has_one r k : has r [k] = true -> exists v, subscript r k = Ok v.
Proof.
  unfold has. destruct r; simpl; try discriminate.
  destruct (dict_find d k); [eauto | discriminate].
Qed.

Lemma has_two r k1 k2 :
  has r [k1; k2] = true ->
  exists a v, subscript r k1 = Ok a /\ subscript a k2 = Ok v.
Proof.
  unfold has. destruct r; simpl; try discriminate.
  destruct (dict_find d k1) as [a |]; [| discriminate].
  destruct a; simpl; try discriminate.
  destruct (dict_find d0 k2) eqn:E; [| discriminate].
  intros _. eexists _, _. split; [reflexivity |]. simpl. now rewrite E.
Qed.

Lemma usernames_ok items :
  forallb (fun i => has i ["username"]) items = true ->
  exists names,
    comprehension (fun reviewer => subscript reviewer "username") items
    = Ok names.
Proof.
  intros H.
  destruct (comprehension_ok
              (fun reviewer => subscript reviewer "username") items)
    as (names & Hnames & _); [| eauto].
  intros x Hin. apply has_one.
  rewrite forallb_forall in H. now apply H.
Qed.

Ltac split_ands H :=
  repeat match type of H with
         | (_ && _)%bool = true =>
             let H1 := fresh H in
             apply andb_prop in H; destruct H as [H1 H]
         end.

Lemma well_formed_ok k r :
  well_formed k r = true -> exists entity, normalize k r = Ok entity.
Proof.
  destruct k; simpl; intros H.
  - apply andb_prop in H. destruct H as [H Hns]. simpl forallb in H.
    split_ands H.
    destruct (has_one _ _ H0) as (id & Eid).
    destruct (has_one _ _ H1) as (name & Ename).
    destruct (has_one _ _ H2) as (url & Eurl).
    destruct (has_one _ _ H3) as (description & Edesc).
    unfold Normalize.project. rewrite Eid, Ename, Eurl, Edesc.
    destruct r; try discriminate. simpl in Hns |- *.
    destruct (dict_find d "namespace") as [[] |]; simpl in *;
      try discriminate; [| eauto].
    destruct (dict_find d0 "full_path"); simpl; eauto.
  - apply andb_prop in H. destruct H as [H Hrev]. simpl forallb in H.
    split_ands H.
    destruct (has_one _ _ H0) as (id & Eid).
    destruct (has_one _ _ H1) as (title & Etitle).
    destruct (has_one _ _ H2) as (state & Estate).
    destruct (has_two _ _ _ H3) as (author & username & Eauthor & Euser).
    destruct (has_one _ _ H4) as (created & Ecreated).
    destruct (has_one _ _ H5) as (updated & Eupdated).
    destruct (has_one _ _ H6) as (link & Elink).
    unfold Normalize.merge_request.
    rewrite Eid, Etitle, Estate, Eauthor. simpl rbind at 1.
    cbv beta. rewrite Euser, Ecreated, Eupdated, Elink.
    destruct r; try discriminate. simpl in Hrev |- *.
    destruct (dict_find d "merged_at"); simpl;
      (destruct (dict_find d "reviewers") as [rv |]; simpl in *; [| eauto];
       destruct (py_iter rv) as [items |]; [| discriminate]; simpl;
       destruct (usernames_ok items Hrev) as (names & ->); simpl; eauto).
  - simpl forallb in H. split_ands H.
    destruct (has_one _ _ H0) as (id & Eid).
    destruct (has_one _ _ H1) as (title & Etitle).
    destruct (has_one _ _ H2) as (state & Estate).
    destruct (has_two _ _ _ H3) as (author & username & Eauthor & Euser).
    destruct (has_one _ _ H4) as (created & Ecreated).
    destruct (has_one _ _ H5) as (updated & Eupdated).
    destruct (has_one _ _ H6) as (link & Elink).
    unfold Normalize.issue.
    rewrite Eid, Etitle, Estate, Eauthor. simpl rbind at 1.
    cbv beta. rewrite Euser, Ecreated, Eupdated, Elink.
    destruct r; try discriminate. simpl.
    destruct (dict_find d "closed_at"); simpl;
      destruct (dict_find d "labels"); simpl; eauto.
Qed.

Lemma fetch_list_unfold {U : Type}
    (http_get : Request -> U -> option Response * U) self k fuel :
  fetch_list http_get self k fuel =
  (data <- rate_limited_request http_get self fuel
             (endpoint_of k) (params_of self k) ;;
   lift (comprehension (normalize k) data))%io.
Proof. destruct k; reflexivity. Qed.

(** C4, as the client behaves: once the paginated request has returned a
    batch of raw project, merge-request or issue records, a batch holding
    a record without one of the required fields makes the whole fetch
    raise the built-in exception of the failing access ([KeyError],
    [TypeError] or [AttributeError]) and return no partial result; a batch
    whose records are all accepted by the mapping is mapped record by
    record, in order. *)
Theorem batch_is_mapped_entirely_or_raises :
  forall (U : Type) (http_get : Request -> U -> option Response * U)
         (self : GitLabHandler) (k : kind) (fuel : nat) (u : U)
         (data : list value) (u' : U) evs,
    rate_limited_request http_get self fuel (endpoint_of k) (params_of self k) u
      = Done (Ok data) u' evs ->
    ((exists r path,
         In r data /\ In path (required k) /\ field r path = None) ->
     exists e,
       fetch_list http_get self k fuel u = Done (Raise e) u' evs /\ builtin e)
    /\ (forallb (well_formed k) data = true ->
        exists out,
          fetch_list http_get self k fuel u = Done (Ok out) u' evs /\
          Forall2 (fun r entity => normalize k r = Ok entity) data out).
Proof.
  intros U http_get self k fuel u data u' evs Hrun.
  rewrite fetch_list_unfold. unfold bind. rewrite Hrun. unfold lift. simpl.
  rewrite app_nil_r. split.
  - intros (r & path & Hin & Hpath & Hnone).
    destruct (missing_required_raises k r path Hpath Hnone) as (e & He & _).
    destruct (comprehension_fails _ _ _ _ Hin He) as (e' & -> & r' & _ & He').
    exists e'. split; [reflexivity |]. now apply normalize_builtin with k r'.
  - intros Hwf.
    destruct (comprehension_ok (normalize k) data) as (out & -> & Hall).
    + intros r Hin. apply well_formed_ok.
      rewrite forallb_forall in Hwf. now apply Hwf.
    + exists out. now split.
Qed.

Lemma py_get_missing r k default v :
  py_get r k default = Ok v -> field r [k] = None -> v = default.
Proof.
  destruct r; simpl; try discriminate.
  destruct (dict_find d k); [discriminate | congruence].
Qed.

(** The optional fields the mappings read with [get]: when the upstream
    record lacks one, the canonical record still has the key, bound to
    [None], or to the empty list for [reviewers] and [labels]. *)
Lemma optional_fields_default :
  (forall g entity,
      Normalize.group g = Ok entity ->
      (field g ["description"] = None ->
       field entity ["description"] = Some VNone) /\
      (field g ["visibility"] = None ->
       field entity ["visibility"] = Some VNone)) /\
  (forall p entity,
      Normalize.project p = Ok entity ->
      field p ["namespace"; "full_path"] = None ->
      field entity ["namespace"] = Some VNone) /\
  (forall mr entity,
      Normalize.merge_request mr = Ok entity ->
      (field mr ["merged_at"] = None ->
       field entity ["mergedAt"] = Some VNone) /\
      (field mr ["reviewers"] = None ->
       field entity ["reviewers"] = Some (VList []))) /\
  (forall i entity,
      Normalize.issue i = Ok entity ->
      (field i ["closed_at"] = None ->
       field entity ["closedAt"] = Some VNone) /\
      (field i ["labels"] = None ->
       field entity ["labels"] = Some (VList []))).
Proof.
  repeat split.
  - unfold Normalize.group in H. invert_ok H. injection H as <-.
    intros Hmiss. now rewrite (py_get_missing _ _ _ _ Hv2 Hmiss).
  - unfold Normalize.group in H. invert_ok H. injection H as <-.
    intros Hmiss. now rewrite (py_get_missing _ _ _ _ Hv3 Hmiss).
  - intros p entity H Hmiss.
    unfold Normalize.project in H. invert_ok H. injection H as <-.
    destruct p; try discriminate. simpl in Hv3, Hmiss.
    destruct (dict_find d "namespace") as [ns |].
    + injection Hv3 as <-. now rewrite (py_get_missing _ _ _ _ Hv4 Hmiss).
    + injection Hv3 as <-. simpl in Hv4. now injection Hv4 as <-.
  - unfold Normalize.merge_request in H. invert_ok H. injection H as <-.
    intros Hmiss. now rewrite (py_get_missing _ _ _ _ Hv6 Hmiss).
  - unfold Normalize.merge_request in H. invert_ok H. injection H as <-.
    intros Hmiss. rewrite (py_get_missing _ _ _ _ Hv8 Hmiss) in Hv9.
    injection Hv9 as <-. simpl in Hv10. now injection Hv10 as <-.
  - unfold Normalize.issue in H. invert_ok H. injection H as <-.
    intros Hmiss. now rewrite (py_get_missing _ _ _ _ Hv6 Hmiss).
  - unfold Normalize.issue in H. invert_ok H. injection H as <-.
    intros Hmiss. now rewrite (py_get_missing _ _ _ _ Hv8 Hmiss).
Qed.

(** ** Construction and endpoint choice *)

(** C9. Constructing a handler with a missing or an empty token raises
    [ValueError], so that no handler exists on which to invoke a fetch;
    with a non-empty token the construction succeeds. *)
Theorem init_requires_token :
  forall (RATE_LIMIT RATE_LIMIT_PERIOD : Z) (url : option string),
    init RATE_LIMIT RATE_LIMIT_PERIOD url None = Raise ValueError /\
    init RATE_LIMIT RATE_LIMIT_PERIOD url (Some "") = Raise ValueError /\
    forall c s,
      init RATE_LIMIT RATE_LIMIT_PERIOD url (Some (String c s)) =
      Ok {| api_url := url; token := Some (String c s);
            rate_limit := RATE_LIMIT;
            rate_limit_period := RATE_LIMIT_PERIOD |}.
Proof. intros. repeat split. Qed.

(** C10. [fetch_groups] called with [parent_id] equal to 0 targets the
    top-level [/groups] endpoint, as it does with [None], and behaves as
    the top-level call; among integers only a non-zero [parent_id] selects
    the subgroups endpoint. *)
Theorem parent_zero_targets_top_level :
  forall (container_str : value -> string),
    groups_endpoint container_str (VInt 0) = "/groups" /\
    groups_endpoint container_str VNone = "/groups" /\
    (forall z,
        groups_endpoint container_str (VInt z) =
        if (z =? 0)%Z then "/groups"
        else ("/groups/" ++ str_of_Z z ++ "/subgroups")%string) /\
    (forall (U : Type) (http_get : Request -> U -> option Response * U)
            (self : GitLabHandler) (depth fuel : nat) (u : U),
        fetch_groups http_get container_str self depth fuel (VInt 0) u =
        fetch_groups http_get container_str self depth fuel VNone u).
Proof.
  intros container_str. repeat split.
  - intros z. unfold groups_endpoint. simpl. now destruct (z =? 0)%Z.
  - intros U http_get self depth fuel u. destruct depth; reflexivity.
Qed.

(** ** Instances *)

(** The two pages of projects of the specification's example are returned
    as three raw records. *)
Lemma two_pages_concatenated :
  exists evs,
    rate_limited_request scripted gitlab 3 "/projects"
      (Some [("per_page", VInt 10)]) (map page_response two_pages ++ [])
    = Done (Ok (List.concat (map records two_pages))) [] evs.
Proof.
  apply paginated_fetch_concatenates_pages.
  - discriminate.
  - repeat constructor; unfold successful; simpl; lia.
  - simpl. auto.
  - simpl. lia.
Defined.

Lemma throttled_pages_absorbed :
  rate_limited_request scripted gitlab 9 "/projects"
    (Some [("per_page", VInt 10)]) (script_of throttled_pages ++ [])
  = Done (Ok (List.concat (map (fun tp => records (snd tp)) throttled_pages)))
      []
      (exchange gitlab "/projects" (Some [("per_page", VInt 10)])
         "https://gitlab.example/api/v4/projects" throttled_pages).
Proof.
  apply (rate_limit_is_absorbed gitlab "/projects").
  - discriminate.
  - repeat constructor; unfold successful; simpl; lia.
  - simpl. auto.
  - simpl. lia.
Defined.

Lemma two_pages_request_shape :
  Forall (request_shape gitlab "/projects" (Some [("per_page", VInt 10)]))
    (exchange gitlab "/projects" (Some [("per_page", VInt 10)])
       "https://gitlab.example/api/v4/projects"
       (map (pair []) two_pages)).
Proof.
  apply (every_request_carries_caller_params _ scripted gitlab "/projects"
           (Some [("per_page", VInt 10)]) 3
           (map page_response two_pages)
           (Ok (List.concat (map records two_pages))) []).
  reflexivity.
Defined.

(** The request for the second page of projects is issued with the
    caller's [per_page] parameter, not with the page number alone. *)
Lemma follow_up_request_resends_params :
  fetch_projects scripted gitlab 3 (map page_response two_pages)
  = Done (Ok [canonical_project 1 "a"; canonical_project 2 "b";
              canonical_project 3 "c"])
      []
      [Get {| url := "https://gitlab.example/api/v4/projects";
              params := Some [("per_page", VInt 10)];
              headers := [("Authorization", "Bearer glpat")];
              timeout := 30 |};
       Get {| url := "https://gitlab.example/api/v4/projects?page=2";
              params := Some [("per_page", VInt 10)];
              headers := [("Authorization", "Bearer glpat")];
              timeout := 30 |}]
  /\ Some [("per_page", VInt 10)] <> (None : query).
Proof. split; [reflexivity | discriminate]. Qed.

Lemma nested_groups_served :
  serves (stateless nested_groups) no_containers gitlab tt VNone
    [Node (group_record 1 "A" 1) [Node (group_record 2 "B" 0) []]]
    ([Get (request gitlab "https://gitlab.example/api/v4/groups" None)]
     ++ ([Get (request gitlab
                 "https://gitlab.example/api/v4/groups/1/subgroups" None)]
         ++ []) ++ [])
    tt.
Proof.
  eapply serves_listing.
  - eapply listing_last;
      [discriminate | reflexivity
      | split; [reflexivity | eexists; split; reflexivity] | reflexivity].
  - eapply serves_inner; [reflexivity | reflexivity | reflexivity | |].
    + eapply serves_listing.
      * eapply listing_last;
          [discriminate | reflexivity
          | split; [reflexivity | eexists; split; reflexivity] | reflexivity].
      * eapply serves_leaf; [reflexivity | reflexivity | apply serves_none].
    + apply serves_none.
Defined.

(** Group A with one subgroup B: the enumeration returns A, then B. *)
Lemma nested_groups_in_preorder :
  fetch_groups (stateless nested_groups) no_containers gitlab 2 4 VNone tt
    = Done (Ok (flat_map block
                  [Node (group_record 1 "A" 1)
                     [Node (group_record 2 "B" 0) []]]))
        tt
        [Get (request gitlab "https://gitlab.example/api/v4/groups" None);
         Get (request gitlab
                "https://gitlab.example/api/v4/groups/1/subgroups" None)]
  /\ (forall t,
         visited [Node (group_record 1 "A" 1)
                    [Node (group_record 2 "B" 0) []]] t ->
         exists before after,
           flat_map block [Node (group_record 1 "A" 1)
                             [Node (group_record 2 "B" 0) []]] =
           before ++ canonical (root t) :: map canonical (below t) ++ after)
  /\ Forall (fun e => exists p,
               In p (VNone :: fetched_under
                                [Node (group_record 1 "A" 1)
                                   [Node (group_record 2 "B" 0) []]]) /\
               request_shape gitlab (groups_endpoint no_containers p) None e)
       [Get (request gitlab "https://gitlab.example/api/v4/groups" None);
        Get (request gitlab
               "https://gitlab.example/api/v4/groups/1/subgroups" None)].
Proof.
  apply (fetch_groups_is_preorder unit (stateless nested_groups)
           no_containers gitlab tt VNone _ _ tt 2 4 nested_groups_served).
  - unfold depth_needed. simpl. lia.
  - simpl. lia.
Defined.

(** With room for two nested calls the enumeration of A and B returns;
    with room for one it ends with [RecursionError]; on the cyclic
    hierarchy it finishes whatever the limit. *)
Lemma nested_groups_within_and_beyond_limit :
  (fetch_groups (stateless nested_groups) no_containers gitlab 2 3 VNone tt
   = Done (Ok (flat_map block
                 [Node (group_record 1 "A" 1)
                    [Node (group_record 2 "B" 0) []]]))
       tt
       ([Get (request gitlab "https://gitlab.example/api/v4/groups" None)]
        ++ ([Get (request gitlab
                    "https://gitlab.example/api/v4/groups/1/subgroups" None)]
            ++ []) ++ []))
  /\ (exists u'' evs'',
        fetch_groups (stateless nested_groups) no_containers gitlab 1 3
          VNone tt
        = Done (Raise RecursionError) u'' evs'')
  /\ (exists bound r u' evs,
        forall fuel, (bound <= fuel)%nat ->
          fetch_groups (stateless cyclic_groups) no_containers gitlab 5 fuel
            VNone tt
          = Done r u' evs).
Proof.
  split; [| split].
  - apply (proj2 (fetch_groups_ends_at_recursion_limit unit
                    (stateless nested_groups) no_containers gitlab 2)
             tt VNone _ _ tt 3%nat nested_groups_served).
    + simpl. lia.
    + unfold depth_needed. simpl. lia.
  - apply (proj2 (fetch_groups_ends_at_recursion_limit unit
                    (stateless nested_groups) no_containers gitlab 1)
             tt VNone _ _ tt 3%nat nested_groups_served).
    + simpl. lia.
    + unfold depth_needed. simpl. lia.
  - apply (proj1 (fetch_groups_ends_at_recursion_limit unit
                    (stateless cyclic_groups) no_containers gitlab 5)).
    intros p []. exists 2%nat. eexists _, _, _. reflexivity.
Defined.

Lemma merge_requests_batch :
  ((exists r path,
       In r [merge_request_record 1; merge_request_record 2] /\
       In path (required MergeRequest) /\ field r path = None) ->
   exists e,
     fetch_list scripted gitlab MergeRequest 3
       [single_page [merge_request_record 1; merge_request_record 2]]
     = Done (Raise e) []
         [Get (request gitlab "https://gitlab.example/api/v4/merge_requests"
                 (params_of gitlab MergeRequest))]
     /\ builtin e)
  /\ (forallb (well_formed MergeRequest)
        [merge_request_record 1; merge_request_record 2] = true ->
      exists out,
        fetch_list scripted gitlab MergeRequest 3
          [single_page [merge_request_record 1; merge_request_record 2]]
        = Done (Ok out) []
            [Get (request gitlab
                    "https://gitlab.example/api/v4/merge_requests"
                    (params_of gitlab MergeRequest))]
        /\ Forall2 (fun r entity => normalize MergeRequest r = Ok entity)
             [merge_request_record 1; merge_request_record 2] out).
Proof.
  apply (batch_is_mapped_entirely_or_raises _ scripted gitlab MergeRequest 3
           [single_page [merge_request_record 1; merge_request_record 2]]).
  reflexivity.
Defined.

(** A merge request without [author] makes the fetch raise [KeyError], the
    exception of the failing subscript; the client has no exception named
    [MalformedRecord]. *)
Lemma merge_request_without_author_raises_KeyError :
  fetch_merge_requests scripted gitlab 3
    [single_page [merge_request_record 1; merge_request_without_author 2]]
  = Done (Raise (KeyError "author")) []
      [Get (request gitlab "https://gitlab.example/api/v4/merge_requests"
              (Some [("scope", VStr "all"); ("per_page", VInt 10)]))]
  /\ class_name (KeyError "author") <> "MalformedRecord".
Proof. split; [reflexivity | discriminate]. Qed.

(** C6, where the client departs from it: a project record that carries
    [id], [name] and [web_url] but no [description] is not mapped with
    [description] bound to [None]; the mapping subscripts the key and
    raises [KeyError], failing the fetch, whereas the mapping of groups
    reads the same key with [get] and binds it to [None]. *)
Theorem project_without_description_raises :
  Normalize.project project_without_description
    = Raise (KeyError "description")
  /\ fetch_projects scripted gitlab 3
       [single_page [project_without_description]]
     = Done (Raise (KeyError "description")) []
         [Get (request gitlab "https://gitlab.example/api/v4/projects"
                 (Some [("per_page", VInt 10)]))]
  /\ Normalize.group project_without_description
     = Ok (VDict [("identifier", VInt 7); ("name", VStr "p");
                  ("url", VStr "https://gitlab.example/p");
                  ("description", VNone); ("visibility", VNone)]).
Proof. repeat split. Qed.

Lemma cyclic_request fuel endpoint :
  (2 <= fuel)%nat ->
  rate_limited_request (stateless cyclic_groups) gitlab fuel endpoint None tt
  = Done (Ok [group_record 1 "A" 1]) tt
      [Get (request gitlab ("https://gitlab.example/api/v4" ++ endpoint)
              None)].
Proof. destruct fuel as [| [| fuel]]; [lia | lia | reflexivity]. Qed.

Lemma cyclic_fetch_overflows depth :
  forall fuel,
    (2 <= fuel)%nat ->
    fetch_groups (stateless cyclic_groups) no_containers gitlab depth fuel
      (VInt 1) tt
    = Done (Raise RecursionError) tt
        (repeat
           (Get (request gitlab
                   "https://gitlab.example/api/v4/groups/1/subgroups" None))
           depth).
Proof.
  induction depth as [| depth IH]; intros fuel Hfuel; [reflexivity |].
  rewrite fetch_groups_S. unfold bind at 1.
  rewrite (cyclic_request fuel _ Hfuel).
  rewrite (groups_loop_inner _ (group_record 1 "A" 1)
             (canonical (group_record 1 "A" 1)) (VInt 1))
    by reflexivity.
  unfold bind. rewrite (IH fuel Hfuel). reflexivity.
Qed.

(** On a hierarchy in which a group is listed among its own subgroups, and
    with the interpreter allowing 1000 nested calls, [fetch_groups] ends
    after 1000 requests with the interpreter's [RecursionError]: no depth
    of the client's is exceeded and no [DepthExceeded] is raised. *)
Lemma cyclic_hierarchy_raises_RecursionError :
  fetch_groups (stateless cyclic_groups) no_containers gitlab 1000 2 VNone tt
  = Done (Raise RecursionError) tt
      (Get (request gitlab "https://gitlab.example/api/v4/groups" None)
       :: repeat
            (Get (request gitlab
                    "https://gitlab.example/api/v4/groups/1/subgroups" None))
            999)
  /\ class_name RecursionError <> "DepthExceeded".
Proof.
  split; [| discriminate].
  rewrite (fetch_groups_S (stateless cyclic_groups) no_containers gitlab
             999 2 VNone).
  unfold bind at 1. rewrite (cyclic_request 2 _ (le_n 2)).
  rewrite (groups_loop_inner _ (group_record 1 "A" 1)
             (canonical (group_record 1 "A" 1)) (VInt 1))
    by reflexivity.
  unfold bind. rewrite (cyclic_fetch_overflows 999 2 (le_n 2)). reflexivity.
Qed.

(** * Further properties *)

(** ** Failures of the paginated request *)

Section Failures.

Variable self : GitLabHandler.
Variables (endpoint : string) (q : query).

Lemma get_scripted url r script :
  get scripted self url q (r :: script)
  = Done (Ok r) script [Get (request self url q)].
Proof. reflexivity. Qed.

Lemma paging_run tps :
  forall url all_data rest fuel,
    url <> "" ->
    Forall paging tps ->
    request_loop scripted self endpoint q
      (List.length (script_of tps) + fuel) (Some url) all_data
      (script_of tps ++ rest)
    = after (exchange self endpoint q url tps)
        (request_loop scripted self endpoint q fuel
           (Some (url_after self endpoint url tps))
           (all_data ++ List.concat (map (fun tp => records (snd tp)) tps))
           rest).
Proof.
  induction tps as [| [rej p] tps IH]; intros url all_data rest fuel Hurl Hok.
  - simpl. rewrite app_nil_r. now destruct (request_loop _ _ _ _ _ _ _ _).
  - inversion Hok as [| ? ? (Hrej & Hp & Hnext) Hok']; subst. clear Hok.
    unfold rejections in Hrej. simpl in Hrej, Hp, Hnext.
    simpl script_of. simpl exchange. simpl url_after. simpl List.concat.
    induction rej as [| r rej IHrej].
    + simpl app. simpl List.length. rewrite Nat.add_succ_l.
      rewrite request_loop_S, (truthy_nonempty _ Hurl).
      unfold bind at 1. simpl fmt.
      rewrite get_scripted.
      pose proof (page_delivers p Hp) as Hd.
      rewrite (delivers_not_429 _ _ Hd). cbv beta iota.
      destruct Hd as (Hs & data & Hj & Hi).
      unfold bind, lift, response_json. rewrite Hs, Hj, Hi.
      simpl x_next_page. rewrite Hnext.
      rewrite IH by auto using page_url_nonempty.
      rewrite <- app_assoc.
      destruct (request_loop scripted self endpoint q fuel _ _ rest);
        reflexivity.
    + inversion Hrej as [| ? ? H429 Hrej']; subst.
      simpl app. simpl List.length. rewrite Nat.add_succ_l.
      rewrite request_loop_S, (truthy_nonempty _ Hurl).
      unfold bind at 1. simpl fmt.
      rewrite get_scripted.
      rewrite H429. change (429 =? 429)%Z with true. cbv beta iota.
      unfold bind, sleep.
      rewrite (IHrej Hrej'). clear IHrej.
      destruct (request_loop scripted self endpoint q fuel _ _ rest);
        reflexivity.
Qed.

Lemma url_after_nonempty tps :
  forall url, url <> "" -> url_after self endpoint url tps <> "".
Proof.
  induction tps as [| tp tps IH]; intros url Hurl; simpl; [exact Hurl |].
  apply IH, page_url_nonempty.
Qed.

Lemma abort_after_pages tps tail e rest' fuel :
  (fmt (api_url self) ++ endpoint)%string <> "" ->
  Forall paging tps ->
  (forall url all_data f,
      url <> "" ->
      request_loop scripted self endpoint q (S f) (Some url) all_data tail
      = Done (Raise e) rest' [Get (request self url q)]) ->
  (List.length (script_of tps) < fuel)%nat ->
  rate_limited_request scripted self fuel endpoint q (script_of tps ++ tail)
  = Done (Raise e) rest'
      (exchange self endpoint q (fmt (api_url self) ++ endpoint) tps
       ++ [Get (request self
                  (url_after self endpoint (fmt (api_url self) ++ endpoint)
                     tps) q)]).
Proof.
  intros Hurl Hok Hstep Hfuel. unfold rate_limited_request.
  replace fuel
    with (List.length (script_of tps)
          + S (fuel - S (List.length (script_of tps))))%nat by lia.
  rewrite paging_run by assumption.
  rewrite Hstep by now apply url_after_nonempty.
  reflexivity.
Qed.

(** A response whose status is neither 429 nor 2xx makes the paginated
    request raise [HTTPStatusError] with that status: the request is not
    repeated, later responses are left unread and the records of the pages
    already fetched are not returned. *)
Theorem http_error_aborts_fetch :
  forall (tps : list throttled) (bad : Response) (rest : list Response)
         (fuel : nat),
    (fmt (api_url self) ++ endpoint)%string <> "" ->
    Forall paging tps ->
    status_code bad <> 429 ->
    status_code bad < 200 \/ 299 < status_code bad ->
    (List.length (script_of tps) < fuel)%nat ->
    rate_limited_request scripted self fuel endpoint q
      (script_of tps ++ bad :: rest)
    = Done (Raise (HTTPStatusError (status_code bad))) rest
        (exchange self endpoint q (fmt (api_url self) ++ endpoint) tps
         ++ [Get (request self
                    (url_after self endpoint
                       (fmt (api_url self) ++ endpoint) tps) q)]).
Proof.
  intros tps bad rest fuel Hurl Hok H429 Hbad Hfuel.
  apply abort_after_pages; try assumption.
  intros url all_data f Hne.
  rewrite request_loop_S, (truthy_nonempty _ Hne).
  unfold bind at 1. simpl fmt. rewrite get_scripted.
  apply Z.eqb_neq in H429. rewrite H429. cbv beta iota.
  unfold bind, lift, raise_for_status.
  assert (((200 <=? status_code bad) && (status_code bad <=? 299))%Z = false)
    as ->.
  { apply andb_false_iff. destruct Hbad; [left | right]; apply Z.leb_gt; lia. }
  reflexivity.
Qed.

(** A 2xx response whose body cannot be decoded makes the paginated request
    raise the decoding error, and one whose body decodes to [None], a
    boolean or a number makes it raise [TypeError]; in both cases the
    records of the pages already fetched are not returned. *)
Theorem bad_body_aborts_fetch :
  forall (tps : list throttled) (bad : Response) (rest : list Response)
         (fuel : nat),
    (fmt (api_url self) ++ endpoint)%string <> "" ->
    Forall paging tps ->
    200 <= status_code bad <= 299 ->
    (List.length (script_of tps) < fuel)%nat ->
    (json bad = None ->
     rate_limited_request scripted self fuel endpoint q
       (script_of tps ++ bad :: rest)
     = Done (Raise JSONDecodeError) rest
         (exchange self endpoint q (fmt (api_url self) ++ endpoint) tps
          ++ [Get (request self
                     (url_after self endpoint
                        (fmt (api_url self) ++ endpoint) tps) q)]))
    /\ (json bad = Some VNone \/ (exists b, json bad = Some (VBool b)) \/
        (exists z, json bad = Some (VInt z)) ->
        rate_limited_request scripted self fuel endpoint q
          (script_of tps ++ bad :: rest)
        = Done (Raise TypeError) rest
            (exchange self endpoint q (fmt (api_url self) ++ endpoint) tps
             ++ [Get (request self
                        (url_after self endpoint
                           (fmt (api_url self) ++ endpoint) tps) q)])).
Proof.
  intros tps bad rest fuel Hurl Hok Hs Hfuel.
  assert (delivers_status :
            (status_code bad =? 429)%Z = false /\
            raise_for_status bad = Ok tt).
  { split; [apply Z.eqb_neq; lia |]. unfold raise_for_status.
    destruct Hs as [Hlo Hhi]. apply Z.leb_le in Hlo. apply Z.leb_le in Hhi.
    now rewrite Hlo, Hhi. }
  destruct delivers_status as [H429 Hraise].
  split; intros Hbody; apply abort_after_pages; try assumption;
    intros url all_data f Hne;
    rewrite request_loop_S, (truthy_nonempty _ Hne);
    unfold bind at 1; simpl fmt; rewrite get_scripted;
    rewrite H429; cbv beta iota;
    unfold bind, lift, response_json; rewrite Hraise.
  - now rewrite Hbody.
  - destruct Hbody as [-> | [(b & ->) | (z & ->)]]; reflexivity.
Qed.

(** When the upstream stops answering while a further page is announced,
    the timeout of the pending request is raised to the caller: the request
    is not repeated and the records of the pages already fetched are not
    returned. *)
Theorem timeout_aborts_fetch :
  forall (tps : list throttled) (fuel : nat),
    (fmt (api_url self) ++ endpoint)%string <> "" ->
    Forall paging tps ->
    (List.length (script_of tps) < fuel)%nat ->
    rate_limited_request scripted self fuel endpoint q (script_of tps)
    = Done (Raise TimeoutException) []
        (exchange self endpoint q (fmt (api_url self) ++ endpoint) tps
         ++ [Get (request self
                    (url_after self endpoint
                       (fmt (api_url self) ++ endpoint) tps) q)]).
Proof.
  intros tps fuel Hurl Hok Hfuel.
  rewrite <- (app_nil_r (script_of tps)) at 1.
  apply abort_after_pages; try assumption.
  intros url all_data f Hne.
  rewrite request_loop_S, (truthy_nonempty _ Hne). reflexivity.
Qed.

(** A 2xx page whose body is a JSON object is not rejected: the keys of the
    object are taken as its records. *)
Theorem object_body_yields_its_keys :
  forall (tps : list throttled) (r : Response) (d : list (string * value))
         (rest : list Response) (fuel : nat),
    (fmt (api_url self) ++ endpoint)%string <> "" ->
    Forall paging tps ->
    200 <= status_code r <= 299 ->
    json r = Some (VDict d) ->
    truthy_str (x_next_page r) = false ->
    (S (List.length (script_of tps)) < fuel)%nat ->
    exists evs,
      rate_limited_request scripted self fuel endpoint q
        (script_of tps ++ r :: rest)
      = Done (Ok (List.concat (map (fun tp => records (snd tp)) tps)
                  ++ map (fun kv => VStr (fst kv)) d)) rest evs.
Proof.
  intros tps r d rest fuel Hurl Hok Hs Hj Hnext Hfuel.
  unfold rate_limited_request.
  replace fuel
    with (List.length (script_of tps)
          + S (S (fuel - S (S (List.length (script_of tps))))))%nat by lia.
  rewrite paging_run by assumption.
  rewrite request_loop_S,
    (truthy_nonempty _ (url_after_nonempty tps _ Hurl)).
  unfold bind at 1. simpl fmt. rewrite get_scripted.
  assert ((status_code r =? 429)%Z = false) as -> by (apply Z.eqb_neq; lia).
  cbv beta iota. unfold bind, lift, response_json, raise_for_status.
  destruct Hs as [Hlo Hhi]. apply Z.leb_le in Hlo. apply Z.leb_le in Hhi.
  rewrite Hlo, Hhi, Hj, Hnext. simpl. eexists. reflexivity.
Qed.

End Failures.

(** ** No retry ceiling and no page ceiling *)

(** While every request is answered either by a 429 rejection or by a page
    that announces a next page, the paginated request never returns: it
    counts neither its retries nor its pages. *)
Theorem request_never_gives_up :
  forall (U : Type) (http_get : Request -> U -> option Response * U)
         (self : GitLabHandler) (endpoint : string) (q : query),
    (forall rq u, exists r u',
        http_get rq u = (Some r, u') /\
        (status_code r = 429 \/
         exists items, delivers r items /\
                       truthy_str (x_next_page r) = true)) ->
    (fmt (api_url self) ++ endpoint)%string <> "" ->
    forall fuel u,
      rate_limited_request http_get self fuel endpoint q u = OutOfFuel.
Proof.
  intros U http_get self endpoint q Hup Hurl fuel.
  unfold rate_limited_request.
  generalize (@nil value) as all_data.
  revert Hurl. generalize (fmt (api_url self) ++ endpoint)%string as url.
  induction fuel as [| fuel IH]; intros url Hurl all_data u; [reflexivity |].
  rewrite request_loop_S, (truthy_nonempty _ Hurl).
  destruct (Hup (request self url q) u) as (r & u' & Hget & Hr).
  unfold bind at 1. simpl fmt.
  rewrite (get_answered http_get self url q u r u' Hget).
  destruct Hr as [H429 | (items & Hd & Hnext)].
  - rewrite H429. change (429 =? 429)%Z with true. cbv beta iota.
    unfold bind, sleep. now rewrite IH.
  - rewrite (delivers_not_429 _ _ Hd). cbv beta iota.
    destruct Hd as (Hs & data & Hj & Hi).
    unfold bind, lift, response_json. rewrite Hs, Hj, Hi, Hnext.
    now rewrite IH by apply page_url_nonempty.
Qed.

(** ** Invariants of the fetch operations *)

Section Invariants.

Context {U : Type}.
Variable http_get : Request -> U -> option Response * U.
Variable container_str : value -> string.
Variable self : GitLabHandler.

Lemma returns_after {A} (P : A -> Prop) pre (o : outcome U A) :
  returns P o -> returns P (after pre o).
Proof. destruct o as [[a | e] u evs |]; auto. Qed.

Lemma returns_bind {A B} (P : B -> Prop) (m : M U A) (k : A -> M U B) u :
  (forall a u1 evs, m u = Done (Ok a) u1 evs -> returns P (k a u1)) ->
  returns P (bind m k u).
Proof.
  intros Hk. unfold bind.
  destruct (m u) as [[a | e] u1 evs |] eqn:E; simpl; auto.
  apply returns_after. eauto.
Qed.

Lemma lift_ok {A} (r : result A) (u : U) a u1 evs :
  lift r u = Done (Ok a) u1 evs -> r = Ok a.
Proof. unfold lift. now intros [= -> _ _]. Qed.

Lemma groups_loop_returns (P : value -> Prop) recurse :
  (forall g entity, Normalize.group g = Ok entity -> P entity) ->
  (forall id u, returns (Forall P) (recurse id u)) ->
  forall data all_groups (u : U),
    Forall P all_groups ->
    returns (Forall P) (groups_loop recurse data all_groups u).
Proof.
  intros Hnorm Hrec data.
  induction data as [| g rest IH]; intros all_groups u Hacc.
  - exact Hacc.
  - rewrite groups_loop_cons.
    apply returns_bind. intros entity u1 evs1 He. apply lift_ok in He.
    assert (Forall P (all_groups ++ [entity])) as Hacc'.
    { apply Forall_app. split; [exact Hacc |]. constructor; eauto. }
    apply returns_bind. intros [|] u2 evs2 _; [| now apply IH].
    apply returns_bind. intros id u3 evs3 _.
    apply returns_bind. intros subgroups u4 evs4 Hsub.
    apply IH. apply Forall_app. split; [exact Hacc' |].
    specialize (Hrec id u3). now rewrite Hsub in Hrec.
Qed.

Lemma fetch_groups_returns (P : value -> Prop) :
  (forall g entity, Normalize.group g = Ok entity -> P entity) ->
  forall depth fuel parent_id u,
    returns (Forall P)
      (fetch_groups http_get container_str self depth fuel parent_id u).
Proof.
  intros Hnorm depth fuel.
  induction depth as [| depth IH]; intros parent_id u; [exact I |].
  rewrite fetch_groups_S.
  apply returns_bind. intros data u1 evs1 _.
  now apply groups_loop_returns.
Qed.

Lemma comprehension_Forall2 {A B} (f : A -> result B) xs ys :
  comprehension f xs = Ok ys -> Forall2 (fun x y => f x = Ok y) xs ys.
Proof.
  revert ys. induction xs as [| x xs IH]; simpl; intros ys H.
  - injection H as <-. constructor.
  - apply rbind_ok in H. destruct H as (y & Hy & H).
    apply rbind_ok in H. destruct H as (ys' & Hys & H).
    injection H as <-. constructor; auto.
Qed.

Lemma comprehension_returns {A} (P : value -> Prop) (f : A -> result value)
    (m : M U (list A)) u :
  (forall x y, f x = Ok y -> P y) ->
  returns (Forall P) (bind m (fun data => lift (comprehension f data)) u).
Proof.
  intros Hf. apply returns_bind. intros data u1 evs1 _.
  unfold lift. simpl.
  destruct (comprehension f data) as [ys |] eqn:E; [| exact I].
  apply comprehension_Forall2 in E.
  induction E; constructor; eauto.
Qed.

Lemma normalizer_keys op r entity :
  normalizer op r = Ok entity -> keys entity = Some (entity_keys op).
Proof.
  destruct op; simpl; intros H.
  - unfold Normalize.group in H. invert_ok H. now injection H as <-.
  - unfold Normalize.project in H. invert_ok H. now injection H as <-.
  - unfold Normalize.merge_request in H. invert_ok H. now injection H as <-.
  - unfold Normalize.issue in H. invert_ok H. now injection H as <-.
Qed.

(** Whatever the upstream answers, every record a fetch operation returns
    is a dict with exactly the keys of its kind, in the order of the dict
    literal. *)
Theorem fetched_records_have_canonical_keys :
  forall (op : operation) (depth fuel : nat) (u : U) out u' evs,
    fetch http_get container_str self op depth fuel u
      = Done (Ok out) u' evs ->
    Forall (fun entity => keys entity = Some (entity_keys op)) out.
Proof.
  intros op depth fuel u out u' evs Hrun.
  assert (returns (Forall (fun entity => keys entity = Some (entity_keys op)))
            (fetch http_get container_str self op depth fuel u)) as H.
  { destruct op; simpl.
    - apply fetch_groups_returns. apply (normalizer_keys FetchGroups).
    - apply comprehension_returns. apply (normalizer_keys FetchProjects).
    - apply comprehension_returns.
      apply (normalizer_keys FetchMergeRequests).
    - apply comprehension_returns. apply (normalizer_keys FetchIssues). }
  now rewrite Hrun in H.
Qed.

Lemma after_ok {A} pre (o : outcome U A) a u' evs :
  after pre o = Done (Ok a) u' evs -> exists evs', o = Done (Ok a) u' evs'.
Proof.
  destruct o as [[a' | e] u1 evs1 |]; simpl; try discriminate.
  intros [= -> -> _]. eauto.
Qed.

Lemma groups_loop_rejects recurse g e :
  Normalize.group g = Raise e ->
  forall data, In g data ->
  forall all_groups (u : U) out u' evs,
    groups_loop recurse data all_groups u <> Done (Ok out) u' evs.
Proof.
  intros Hbad data.
  induction data as [| g0 rest IH]; intros Hin all_groups u out u' evs;
    [destruct Hin |].
  rewrite groups_loop_cons. unfold bind at 1, lift at 1.
  destruct Hin as [-> | Hin]; [rewrite Hbad; discriminate |].
  destruct (Normalize.group g0) as [entity |]; [| discriminate].
  cbv beta iota. unfold bind at 1, lift at 1.
  destruct (has_subgroups g0) as [[|] |]; cbv beta iota; [| | discriminate].
  - unfold bind at 1, lift at 1.
    destruct (subscript g0 "id") as [id |]; [| discriminate].
    cbv beta iota. unfold bind at 1.
    destruct (recurse id u) as [[subgroups | e'] u2 evs2 |];
      [| discriminate | discriminate].
    intros H. repeat (apply after_ok in H; destruct H as (? & H)).
    now apply IH in H.
  - intros H. repeat (apply after_ok in H; destruct H as (? & H)).
    now apply IH in H.
Qed.

(** A listing that holds a group record the mapping rejects makes
    [fetch_groups] fail as a whole: it never returns the groups collected
    before that record. *)
Theorem malformed_group_aborts_enumeration :
  forall (depth fuel : nat) (parent_id : value) (u : U) data u1 evs1 g e,
    rate_limited_request http_get self fuel
      (groups_endpoint container_str parent_id) None u
      = Done (Ok data) u1 evs1 ->
    In g data ->
    Normalize.group g = Raise e ->
    forall out u' evs,
      fetch_groups http_get container_str self depth fuel parent_id u
      <> Done (Ok out) u' evs.
Proof.
  intros depth fuel parent_id u data u1 evs1 g e Hlist Hin Hbad out u' evs.
  destruct depth as [| depth]; [discriminate |].
  rewrite fetch_groups_S. unfold bind at 1. rewrite Hlist.
  intros H. apply after_ok in H. destruct H as (evs' & H).
  now apply (groups_loop_rejects _ g e Hbad data Hin) in H.
Qed.

(** A group record without [subgroup_count] is treated as having no
    subgroups: the loop goes on to the next record without recursing.  A
    [subgroup_count] that is neither a number nor a boolean makes the loop
    raise [TypeError] there. *)
Theorem subgroup_count_decides_recursion :
  forall (recurse : value -> M U (list value)) (g entity : value)
         (rest all_groups : list value) (u : U),
    Normalize.group g = Ok entity ->
    (field g ["subgroup_count"] = None ->
     groups_loop recurse (g :: rest) all_groups u
     = groups_loop recurse rest (all_groups ++ [entity]) u)
    /\ (forall v,
           field g ["subgroup_count"] = Some v ->
           (forall z, v <> VInt z) -> (forall b, v <> VBool b) ->
           groups_loop recurse (g :: rest) all_groups u
           = Done (Raise TypeError) u []).
Proof.
  intros recurse g entity rest all_groups u Hnorm.
  assert (exists d, g = VDict d) as (d & ->).
  { destruct g; try discriminate. eauto. }
  split.
  - intros Hmiss. rewrite groups_loop_cons.
    unfold bind at 1, lift at 1. rewrite Hnorm. cbv beta iota.
    unfold bind at 1, lift at 1. unfold has_subgroups. simpl in Hmiss |- *.
    destruct (dict_find d "subgroup_count"); [discriminate |]. simpl.
    now destruct (groups_loop recurse rest (all_groups ++ [entity]) u).
  - intros v Hv Hint Hbool. rewrite groups_loop_cons.
    unfold bind at 1, lift at 1. rewrite Hnorm. cbv beta iota.
    unfold bind at 1, lift at 1. unfold has_subgroups. simpl in Hv |- *.
    destruct (dict_find d "subgroup_count") as [v' |]; [| discriminate].
    injection Hv as ->. simpl.
    destruct v; try reflexivity;
      [now destruct (Hbool b) | now destruct (Hint z)].
Qed.

End Invariants.

(** ** A constructed handler and its requests *)

Section Authorization.

Context {U : Type}.
Variable http_get : Request -> U -> option Response * U.
Variable container_str : value -> string.
Variable self : GitLabHandler.

Let allowed : event -> Prop :=
  authorized (fmt (token self)) (rate_limit_period self).

Lemma request_loop_authorized endpoint q fuel :
  forall url all_data u,
    emits allowed (request_loop http_get self endpoint q fuel url all_data u).
Proof.
  induction fuel as [| fuel IH]; intros url all_data u; [exact I |].
  rewrite request_loop_S.
  destruct (truthy_str url); [| constructor].
  apply emits_bind.
  - unfold get.
    destruct (http_get (request self (fmt url) q) u) as [[r |] u1]; simpl;
      (constructor; [split; reflexivity | constructor]).
  - intros response u1.
    destruct (status_code response =? 429)%Z.
    + apply emits_bind; [| intros; apply IH].
      simpl. constructor; [reflexivity | constructor].
    + repeat (apply emits_bind; [apply emits_lift | intros]). apply IH.
Qed.

Lemma groups_loop_emits (P : event -> Prop) recurse :
  (forall id (u : U), emits P (recurse id u)) ->
  forall data all_groups u, emits P (groups_loop recurse data all_groups u).
Proof.
  intros Hrec data.
  induction data as [| g rest IH]; intros all_groups u; [constructor |].
  rewrite groups_loop_cons.
  apply emits_bind; [apply emits_lift | intros entity u1].
  apply emits_bind; [apply emits_lift | intros [|] u2]; [| apply IH].
  apply emits_bind; [apply emits_lift | intros id u3].
  apply emits_bind; [apply Hrec | intros; apply IH].
Qed.

Lemma fetch_groups_authorized depth fuel :
  forall parent_id u,
    emits allowed
      (fetch_groups http_get container_str self depth fuel parent_id u).
Proof.
  induction depth as [| depth IH]; intros parent_id u; [constructor |].
  rewrite fetch_groups_S.
  apply emits_bind; [apply request_loop_authorized | intros data u1].
  now apply groups_loop_emits.
Qed.

Lemma fetch_authorized op depth fuel u :
  emits allowed (fetch http_get container_str self op depth fuel u).
Proof.
  destruct op; simpl.
  - apply fetch_groups_authorized.
  - apply emits_bind;
      [apply request_loop_authorized | intros; apply emits_lift].
  - apply emits_bind;
      [apply request_loop_authorized | intros; apply emits_lift].
  - apply emits_bind;
      [apply request_loop_authorized | intros; apply emits_lift].
Qed.

Lemma bind_starts {A B} (m : M U A) (k : A -> M U B) u e :
  (forall r u1 evs, m u = Done r u1 evs -> exists rest, evs = e :: rest) ->
  forall r u' evs, bind m k u = Done r u' evs -> exists rest, evs = e :: rest.
Proof.
  intros Hm r u' evs. unfold bind.
  destruct (m u) as [[a | e'] u1 evs1 |] eqn:E; [| | discriminate].
  - destruct (Hm _ _ _ eq_refl) as (rest & ->).
    destruct (k a u1) as [r2 u2 evs2 |]; simpl; [| discriminate].
    intros [= _ _ <-]. eauto.
  - destruct (Hm _ _ _ eq_refl) as (rest & ->). intros [= _ _ <-]. eauto.
Qed.

Lemma request_starts endpoint q fuel u r u' evs :
  (fmt (api_url self) ++ endpoint)%string <> "" ->
  rate_limited_request http_get self fuel endpoint q u = Done r u' evs ->
  exists rest,
    evs = Get (request self (fmt (api_url self) ++ endpoint) q) :: rest.
Proof.
  intros Hurl. unfold rate_limited_request.
  destruct fuel as [| fuel]; [discriminate |].
  rewrite request_loop_S, (truthy_nonempty _ Hurl).
  apply bind_starts. intros r0 u1 evs0. unfold get. simpl fmt.
  destruct (http_get _ u) as [[resp |] u2]; intros [= _ _ <-]; eauto.
Qed.

End Authorization.

(** Composed with the constructor: whatever the upstream answers, every
    request a fetch operation of a constructed handler issues carries the
    (non-empty) token as a bearer credential and a timeout of 30, and
    every sleep lasts the configured rate-limit period. *)
Theorem constructed_handler_authorizes_every_request :
  forall (RATE_LIMIT RATE_LIMIT_PERIOD : Z) (base tok : option string)
         (self : GitLabHandler)
         (U : Type) (http_get : Request -> U -> option Response * U)
         (container_str : value -> string) (op : operation)
         (depth fuel : nat) (u : U) r u' evs,
    init RATE_LIMIT RATE_LIMIT_PERIOD base tok = Ok self ->
    fetch http_get container_str self op depth fuel u = Done r u' evs ->
    exists bearer,
      tok = Some bearer /\ bearer <> "" /\
      Forall (authorized bearer RATE_LIMIT_PERIOD) evs.
Proof.
  intros RL RLP base tok self U http_get container_str op depth fuel u r u'
         evs Hinit Hrun.
  unfold init in Hinit.
  destruct (truthy_str tok) eqn:Etok; [| discriminate].
  injection Hinit as <-.
  destruct tok as [bearer |]; [| discriminate].
  exists bearer. split; [reflexivity |]. split.
  - simpl in Etok. now destruct (String.eqb_spec bearer "").
  - pose proof (fetch_authorized http_get container_str
                  {| api_url := base; token := Some bearer;
                     rate_limit := RL; rate_limit_period := RLP |}
                  op depth fuel u) as H.
    rewrite Hrun in H. exact H.
Qed.

(** Composed with the constructor: a fetch of projects, merge requests or
    issues that finishes, normally or not, has first requested the bare
    endpoint with [per_page] set to the configured rate limit (and, for
    merge requests and issues, [scope] set to [all]). *)
Theorem fetch_first_requests_the_endpoint :
  forall (RATE_LIMIT RATE_LIMIT_PERIOD : Z) (base tok : option string)
         (self : GitLabHandler)
         (U : Type) (http_get : Request -> U -> option Response * U)
         (k : kind) (fuel : nat) (u : U) r u' evs,
    init RATE_LIMIT RATE_LIMIT_PERIOD base tok = Ok self ->
    fetch_list http_get self k fuel u = Done r u' evs ->
    exists rest,
      evs =
      Get {| url := (fmt base ++ endpoint_of k)%string;
             params :=
               match k with
               | Project => Some [("per_page", VInt RATE_LIMIT)]
               | MergeRequest | Issue =>
                   Some [("scope", VStr "all");
                         ("per_page", VInt RATE_LIMIT)]
               end;
             headers := [("Authorization", ("Bearer " ++ fmt tok)%string)];
             timeout := 30 |} :: rest.
Proof.
  intros RL RLP base tok self U http_get k fuel u r u' evs Hinit.
  unfold init in Hinit.
  destruct (truthy_str tok); [| discriminate]. injection Hinit as <-.
  rewrite fetch_list_unfold.
  apply bind_starts. intros r0 u1 evs0 Hreq.
  apply request_starts in Hreq.
  - destruct Hreq as (rest & ->). exists rest. now destruct k.
  - apply append_nonempty. now destruct k.
Qed.

(** ** What the record mappings copy *)

Lemma subscript_path r k v path :
  subscript r k = Ok v -> field r (k :: path) = field v path.
Proof. apply field_cons. Qed.

Lemma normalize_mapping k r entity :
  normalize k r = Ok entity ->
  forall c p, In (c, p) (mapping k) ->
              exists v, field r p = Some v /\ field entity [c] = Some v.
Proof.
  destruct k; simpl; intros H c p Hin.
  - unfold Normalize.project in H. invert_ok H. injection H as <-.
    repeat (destruct Hin as [[= <- <-] | Hin];
            [eexists; split;
             [repeat (erewrite field_cons by eassumption); reflexivity
             | reflexivity] |]).
    destruct Hin.
  - unfold Normalize.merge_request in H. invert_ok H. injection H as <-.
    repeat (destruct Hin as [[= <- <-] | Hin];
            [eexists; split;
             [repeat (erewrite field_cons by eassumption); reflexivity
             | reflexivity] |]).
    destruct Hin.
  - unfold Normalize.issue in H. invert_ok H. injection H as <-.
    repeat (destruct Hin as [[= <- <-] | Hin];
            [eexists; split;
             [repeat (erewrite field_cons by eassumption); reflexivity
             | reflexivity] |]).
    destruct Hin.
Qed.

(** When a fetch of projects, merge requests or issues returns, it returns
    one canonical record per raw record of the paginated request, in the
    same order, and each canonical field read by subscript holds the value
    of its upstream field: [identifier] the [id], [url] or [link] the
    [web_url], [status] the [state], [author] the author's [username]. *)
Theorem fetched_records_copy_upstream_fields :
  forall (U : Type) (http_get : Request -> U -> option Response * U)
         (self : GitLabHandler) (k : kind) (fuel : nat) (u : U)
         data u1 evs1 out u' evs,
    rate_limited_request http_get self fuel (endpoint_of k) (params_of self k) u
      = Done (Ok data) u1 evs1 ->
    fetch_list http_get self k fuel u = Done (Ok out) u' evs ->
    Forall2 (fun r entity =>
               forall c p, In (c, p) (mapping k) ->
                           exists v, field r p = Some v /\
                                     field entity [c] = Some v)
            data out.
Proof.
  intros U http_get self k fuel u data u1 evs1 out u' evs Hreq Hrun.
  rewrite fetch_list_unfold in Hrun. unfold bind in Hrun.
  rewrite Hreq in Hrun. unfold lift in Hrun. simpl in Hrun.
  destruct (comprehension (normalize k) data) as [ys |] eqn:E;
    [| discriminate].
  injection Hrun as <- _ _.
  apply comprehension_Forall2 in E.
  clear Hreq.
  induction E as [| r entity data out Hr _ IH]; constructor; [| exact IH].
  intros c p Hin. now apply (normalize_mapping k r entity Hr).
Qed.

(** Each optional field read with [get] is copied when the upstream record
    has it and otherwise set to its default: [None], or the empty list for
    [labels]. *)
Theorem optional_fields_are_copied_or_defaulted :
  forall (op : operation) (r entity : value) c p default,
    normalizer op r = Ok entity ->
    In (c, p, default) (optional_of op) ->
    field entity [c] =
    Some match field r p with Some v => v | None => default end.
Proof.
  intros op r entity c p default H Hin.
  assert (forall o k d v, py_get o k d = Ok v ->
            v = match field o [k] with Some v' => v' | None => d end) as Hget.
  { intros o k d v. destruct o; simpl; try discriminate.
    destruct (dict_find d0 k); congruence. }
  destruct op; simpl in H, Hin.
  - unfold Normalize.group in H. invert_ok H. injection H as <-.
    destruct Hin as [[= <- <- <-] | [[= <- <- <-] | []]]; simpl;
      f_equal; now apply Hget.
  - unfold Normalize.project in H. invert_ok H. injection H as <-.
    destruct Hin as [[= <- <- <-] | []]. simpl field at 1. f_equal.
    apply Hget in Hv4. rewrite Hv4. clear Hv4.
    destruct r; try discriminate. simpl in Hv3 |- *.
    destruct (dict_find d "namespace") as [ns |];
      injection Hv3 as <-; reflexivity.
  - unfold Normalize.merge_request in H. invert_ok H. injection H as <-.
    destruct Hin as [[= <- <- <-] | []]. simpl. f_equal. now apply Hget.
  - unfold Normalize.issue in H. invert_ok H. injection H as <-.
    destruct Hin as [[= <- <- <-] | [[= <- <- <-] | []]]; simpl;
      f_equal; now apply Hget.
Qed.

(** The canonical [reviewers] of a merge request are the usernames of the
    upstream reviewers, one per reviewer and in the same order; without
    upstream reviewers the list is empty. *)
Theorem reviewers_are_their_usernames :
  forall (mr entity : value),
    Normalize.merge_request mr = Ok entity ->
    exists names,
      field entity ["reviewers"] = Some (VList names) /\
      match field mr ["reviewers"] with
      | None => names = []
      | Some reviewers =>
          exists items,
            py_iter reviewers = Ok items /\
            Forall2 (fun reviewer name =>
                       field reviewer ["username"] = Some name) items names
      end.
Proof.
  intros mr entity H.
  unfold Normalize.merge_request in H. invert_ok H. injection H as <-.
  match goal with
  | Hget : py_get mr "reviewers" _ = Ok ?rv,
    Hiter : py_iter ?rv = Ok ?items,
    Hnames : comprehension _ ?items = Ok ?names |- _ =>
      exists names; split; [reflexivity |];
      apply comprehension_Forall2 in Hnames;
      assert (Forall2 (fun reviewer name =>
                         field reviewer ["username"] = Some name)
                      items names) as Hall
        by (eapply Forall2_impl; [| exact Hnames];
            intros reviewer name Hsub; now apply subscript_field);
      destruct mr; try discriminate; simpl in Hget |- *;
      destruct (dict_find d "reviewers") as [reviewers |];
      injection Hget as <-;
      [eauto
      | simpl in Hiter; injection Hiter as <-; now inversion Hall]
  end.
Qed.

(** A project whose [namespace] is present but is not an object (for
    instance [null]) is not mapped: reading [full_path] from it raises
    [AttributeError]. *)
Theorem namespace_must_be_an_object :
  forall (p v : value),
    forallb (has p) [["id"]; ["name"]; ["web_url"]; ["description"]] = true ->
    field p ["namespace"] = Some v ->
    (forall d, v <> VDict d) ->
    Normalize.project p = Raise AttributeError.
Proof.
  intros p v H Hns Hv. simpl forallb in H. split_ands H.
  destruct (has_one _ _ H0) as (id & Eid).
  destruct (has_one _ _ H1) as (name & Ename).
  destruct (has_one _ _ H2) as (url & Eurl).
  destruct (has_one _ _ H3) as (description & Edesc).
  unfold Normalize.project. rewrite Eid, Ename, Eurl, Edesc.
  destruct p; try discriminate. simpl in Hns |- *.
  destruct (dict_find d "namespace") as [ns |]; [| discriminate].
  injection Hns as ->. simpl.
  destruct v; try reflexivity. now destruct (Hv d0).
Qed.

(** A merge request or an issue whose [author] is present but is not an
    object (for instance [null]) is not mapped: subscripting it for
    [username] raises [TypeError]. *)
Theorem author_must_be_an_object :
  forall (k : kind) (r v : value),
    k <> Project ->
    forallb (has r) [["id"]; ["title"]; ["state"]] = true ->
    field r ["author"] = Some v ->
    (forall d, v <> VDict d) ->
    normalize k r = Raise TypeError.
Proof.
  intros k r v Hk H Hauthor Hv. simpl forallb in H. split_ands H.
  destruct (has_one _ _ H0) as (id & Eid).
  destruct (has_one _ _ H1) as (title & Etitle).
  destruct (has_one _ _ H2) as (state & Estate).
  assert (subscript r "author" = Ok v) as Eauthor by now apply subscript_field.
  assert (subscript v "username" = Raise TypeError) as Euser.
  { destruct v; try reflexivity. now destruct (Hv d). }
  destruct k; [contradiction | |]; simpl.
  - unfold Normalize.merge_request.
    rewrite Eid, Etitle, Estate, Eauthor. simpl. now rewrite Euser.
  - unfold Normalize.issue.
    rewrite Eid, Etitle, Estate, Eauthor. simpl. now rewrite Euser.
Qed.

(** ** The webhook *)

(** Whatever the upstream answers, [setup_webhook] returns normally after
    exactly one POST to [/hooks]: a rejection (a 429 included), any other
    status outside 2xx or a timeout is logged as an error and neither
    raised nor retried; only a 2xx answer is logged as a success. *)
Theorem setup_webhook_never_raises_nor_retries :
  forall (U : Type) (http_post : PostRequest -> U -> option Response * U)
         (WEBHOOK_URL : option string) (self : GitLabHandler) (u : U),
    exists last_record,
      setup_webhook http_post WEBHOOK_URL self u
      = (Ok tt, snd (http_post (webhook_request WEBHOOK_URL self) u),
         [LogInfo
            "Setting up instance-level webhook for all GitLab resources...";
          Post (webhook_request WEBHOOK_URL self);
          last_record])
      /\ last_record =
         match fst (http_post (webhook_request WEBHOOK_URL self) u) with
         | None =>
             LogError "Failed to set up instance-level webhook: "
               TimeoutException
         | Some r =>
             if ((200 <=? status_code r) && (status_code r <=? 299))%Z
             then LogInfo "Instance-level webhook setup complete."
             else LogError "Failed to set up instance-level webhook: "
                    (HTTPStatusError (status_code r))
         end.
Proof.
  intros U http_post WEBHOOK_URL self u.
  unfold setup_webhook, hbind, try_except, log_info, log_error, post.
  destruct (http_post (webhook_request WEBHOOK_URL self) u) as [[r |] u'];
    simpl.
  - unfold raise_for_status.
    destruct ((200 <=? status_code r) && (status_code r <=? 299))%Z;
      eexists; split; reflexivity.
  - eexists; split; reflexivity.
Qed.

(** Whatever the upstream answers, every request of a group enumeration
    that finishes, normally or not, lists groups: it targets [/groups] or
    the [subgroups] of some parent, possibly with a page number, and
    carries no query parameters. *)
Theorem group_enumeration_only_lists_groups :
  forall (U : Type) (http_get : Request -> U -> option Response * U)
         (container_str : value -> string) (self : GitLabHandler)
         (depth fuel : nat) (parent_id : value) (u : U) r u' evs,
    fetch_groups http_get container_str self depth fuel parent_id u
      = Done r u' evs ->
    Forall (fun e => exists p,
              request_shape self (groups_endpoint container_str p) None e)
           evs.
Proof.
  intros U http_get container_str self depth fuel parent_id u r u' evs Hrun.
  assert (forall depth parent_id u,
             emits (fun e => exists p,
                      request_shape self (groups_endpoint container_str p)
                        None e)
               (fetch_groups http_get container_str self depth fuel
                  parent_id u))
    as H.
  { clear. intros depth.
    induction depth as [| depth IH]; intros parent_id u; [constructor |].
    rewrite fetch_groups_S. apply emits_bind.
    - pose proof (request_loop_shape http_get self
                    (groups_endpoint container_str parent_id) None fuel
                    (Some (fmt (api_url self)
                           ++ groups_endpoint container_str parent_id)%string)
                    [] u) as Hshape.
      unfold rate_limited_request.
      destruct (request_loop _ _ _ _ _ _ _ u) as [r0 u0 evs0 |];
        [| exact I].
      simpl in *. eapply Forall_impl; [| apply Hshape; intros _; now left].
      intros e He. now exists parent_id.
    - intros data u1. now apply groups_loop_emits. }
  specialize (H depth parent_id u). now rewrite Hrun in H.
Qed.

Lemma nested_groups_only_list_groups :
  Forall (fun e => exists p,
            request_shape gitlab (groups_endpoint no_containers p) None e)
    [Get (request gitlab "https://gitlab.example/api/v4/groups" None);
     Get (request gitlab
            "https://gitlab.example/api/v4/groups/1/subgroups" None)].
Proof.
  apply (group_enumeration_only_lists_groups unit (stateless nested_groups)
           no_containers gitlab 2 4 VNone tt
           (Ok (flat_map block
                  [Node (group_record 1 "A" 1)
                     [Node (group_record 2 "B" 0) []]])) tt).
  reflexivity.
Defined.

(** ** Further instances *)

Lemma server_error_after_first_page :
  rate_limited_request scripted gitlab 2 "/projects"
    (Some [("per_page", VInt 10)])
    (script_of [first_page] ++ server_error :: [too_many_requests])
  = Done (Raise (HTTPStatusError (status_code server_error)))
      [too_many_requests]
      (exchange gitlab "/projects" (Some [("per_page", VInt 10)])
         "https://gitlab.example/api/v4/projects" [first_page]
       ++ [Get (request gitlab
                  (url_after gitlab "/projects"
                     "https://gitlab.example/api/v4/projects" [first_page])
                  (Some [("per_page", VInt 10)]))]).
Proof.
  apply (http_error_aborts_fetch gitlab "/projects").
  - discriminate.
  - repeat constructor; unfold successful; simpl; lia.
  - discriminate.
  - right. simpl. lia.
  - simpl. lia.
Defined.

Lemma undecodable_after_first_page :
  (json undecodable = None ->
   rate_limited_request scripted gitlab 2 "/projects"
     (Some [("per_page", VInt 10)])
     (script_of [first_page] ++ undecodable :: [])
   = Done (Raise JSONDecodeError) []
       (exchange gitlab "/projects" (Some [("per_page", VInt 10)])
          "https://gitlab.example/api/v4/projects" [first_page]
        ++ [Get (request gitlab
                   (url_after gitlab "/projects"
                      "https://gitlab.example/api/v4/projects" [first_page])
                   (Some [("per_page", VInt 10)]))]))
  /\ (json undecodable = Some VNone \/
      (exists b, json undecodable = Some (VBool b)) \/
      (exists z, json undecodable = Some (VInt z)) ->
      rate_limited_request scripted gitlab 2 "/projects"
        (Some [("per_page", VInt 10)])
        (script_of [first_page] ++ undecodable :: [])
      = Done (Raise TypeError) []
          (exchange gitlab "/projects" (Some [("per_page", VInt 10)])
             "https://gitlab.example/api/v4/projects" [first_page]
           ++ [Get (request gitlab
                      (url_after gitlab "/projects"
                         "https://gitlab.example/api/v4/projects"
                         [first_page])
                      (Some [("per_page", VInt 10)]))])).
Proof.
  apply (bad_body_aborts_fetch gitlab "/projects").
  - discriminate.
  - repeat constructor; unfold successful; simpl; lia.
  - simpl. lia.
  - simpl. lia.
Defined.

Lemma timeout_after_first_page :
  rate_limited_request scripted gitlab 2 "/projects"
    (Some [("per_page", VInt 10)]) (script_of [first_page])
  = Done (Raise TimeoutException) []
      (exchange gitlab "/projects" (Some [("per_page", VInt 10)])
         "https://gitlab.example/api/v4/projects" [first_page]
       ++ [Get (request gitlab
                  (url_after gitlab "/projects"
                     "https://gitlab.example/api/v4/projects" [first_page])
                  (Some [("per_page", VInt 10)]))]).
Proof.
  apply (timeout_aborts_fetch gitlab "/projects").
  - discriminate.
  - repeat constructor; unfold successful; simpl; lia.
  - simpl. lia.
Defined.

Lemma error_object_after_first_page :
  exists evs,
    rate_limited_request scripted gitlab 3 "/projects"
      (Some [("per_page", VInt 10)])
      (script_of [first_page] ++ error_object :: [])
    = Done (Ok (List.concat (map (fun tp => records (snd tp)) [first_page])
                ++ map (fun kv => VStr (fst kv))
                     [("message", VStr "404 Not found")]))
        [] evs.
Proof.
  apply (object_body_yields_its_keys gitlab "/projects").
  - discriminate.
  - repeat constructor; unfold successful; simpl; lia.
  - simpl. lia.
  - reflexivity.
  - reflexivity.
  - simpl. lia.
Defined.

Lemma throttled_forever :
  rate_limited_request (stateless always_throttled) gitlab 1000 "/issues"
    None tt = OutOfFuel.
Proof.
  apply request_never_gives_up.
  - intros rq []. exists too_many_requests, tt. split; [reflexivity |].
    left. reflexivity.
  - discriminate.
Defined.

Lemma two_pages_canonical_keys :
  Forall (fun entity => keys entity = Some (entity_keys FetchProjects))
    [canonical_project 1 "a"; canonical_project 2 "b";
     canonical_project 3 "c"].
Proof.
  apply (fetched_records_have_canonical_keys scripted no_containers gitlab
           FetchProjects 0 3 (map page_response two_pages) _ []
           (exchange gitlab "/projects" (Some [("per_page", VInt 10)])
              "https://gitlab.example/api/v4/projects"
              (map (pair []) two_pages))).
  reflexivity.
Defined.

Lemma broken_groups_abort :
  fetch_groups (stateless broken_groups) no_containers gitlab 5 2 VNone tt
  <> Done (Ok [canonical (group_record 1 "A" 0)]) tt
       [Get (request gitlab "https://gitlab.example/api/v4/groups" None)].
Proof.
  apply (malformed_group_aborts_enumeration (stateless broken_groups)
           no_containers gitlab 5 2 VNone tt
           [group_record 1 "A" 0; group_without_name] tt
           [Get (request gitlab "https://gitlab.example/api/v4/groups" None)]
           group_without_name (KeyError "name")).
  - reflexivity.
  - right. left. reflexivity.
  - reflexivity.
Defined.

Lemma group_without_count_is_a_leaf :
  (field group_without_count ["subgroup_count"] = None ->
   groups_loop
     (fetch_groups (stateless nested_groups) no_containers gitlab 2 3)
     [group_without_count] [] tt
   = groups_loop
       (fetch_groups (stateless nested_groups) no_containers gitlab 2 3)
       [] ([] ++ [canonical group_without_count]) tt)
  /\ (forall v,
         field group_without_count ["subgroup_count"] = Some v ->
         (forall z, v <> VInt z) -> (forall b, v <> VBool b) ->
         groups_loop
           (fetch_groups (stateless nested_groups) no_containers gitlab 2 3)
           [group_without_count] [] tt
         = Done (Raise TypeError) tt []).
Proof.
  apply subgroup_count_decides_recursion. reflexivity.
Defined.

Lemma constructed_gitlab_authorizes :
  exists bearer,
    Some "glpat" = Some bearer /\ bearer <> "" /\
    Forall (authorized bearer 60)
      (exchange gitlab "/projects" (Some [("per_page", VInt 10)])
         "https://gitlab.example/api/v4/projects" (map (pair []) two_pages)).
Proof.
  apply (constructed_handler_authorizes_every_request 10 60
           (Some "https://gitlab.example/api/v4") (Some "glpat") gitlab
           _ scripted no_containers FetchProjects 0 3
           (map page_response two_pages)
           (Ok [canonical_project 1 "a"; canonical_project 2 "b";
                canonical_project 3 "c"]) []);
    reflexivity.
Defined.

Lemma merge_requests_first_request :
  exists rest,
    [Get (request gitlab "https://gitlab.example/api/v4/merge_requests"
            (params_of gitlab MergeRequest))]
    = Get {| url := (fmt (Some "https://gitlab.example/api/v4")
                     ++ endpoint_of MergeRequest)%string;
             params := Some [("scope", VStr "all"); ("per_page", VInt 10)];
             headers := [("Authorization",
                          ("Bearer " ++ fmt (Some "glpat"))%string)];
             timeout := 30 |} :: rest.
Proof.
  apply (fetch_first_requests_the_endpoint 10 60
           (Some "https://gitlab.example/api/v4") (Some "glpat") gitlab
           _ scripted MergeRequest 3
           [single_page [merge_request_record 1;
                         merge_request_without_author 2]]
           (Raise (KeyError "author")) []);
    reflexivity.
Defined.

Lemma two_pages_copy_upstream_fields :
  Forall2 (fun r entity =>
             forall c p, In (c, p) (mapping Project) ->
                         exists v, field r p = Some v /\
                                   field entity [c] = Some v)
    (List.concat (map records two_pages))
    [canonical_project 1 "a"; canonical_project 2 "b";
     canonical_project 3 "c"].
Proof.
  apply (fetched_records_copy_upstream_fields _ scripted gitlab Project 3
           (map page_response two_pages)
           (List.concat (map records two_pages)) []
           (exchange gitlab "/projects" (Some [("per_page", VInt 10)])
              "https://gitlab.example/api/v4/projects"
              (map (pair []) two_pages))
           _ []
           (exchange gitlab "/projects" (Some [("per_page", VInt 10)])
              "https://gitlab.example/api/v4/projects"
              (map (pair []) two_pages)));
    reflexivity.
Defined.

Lemma group_without_count_defaults :
  field (canonical group_without_count) ["visibility"]
  = Some match field group_without_count ["visibility"] with
         | Some v => v
         | None => VNone
         end.
Proof.
  apply (optional_fields_are_copied_or_defaulted FetchGroups
           group_without_count (canonical group_without_count)
           "visibility" ["visibility"] VNone).
  - reflexivity.
  - right. left. reflexivity.
Defined.

Lemma reviewed_merge_request_reviewers :
  exists entity,
    Normalize.merge_request reviewed_merge_request = Ok entity /\
    exists names,
      field entity ["reviewers"] = Some (VList names) /\
      match field reviewed_merge_request ["reviewers"] with
      | None => names = []
      | Some reviewers =>
          exists items,
            py_iter reviewers = Ok items /\
            Forall2 (fun reviewer name =>
                       field reviewer ["username"] = Some name) items names
      end.
Proof.
  eexists. split; [reflexivity |].
  apply reviewers_are_their_usernames. reflexivity.
Defined.

Lemma null_namespace_raises :
  Normalize.project project_with_null_namespace = Raise AttributeError.
Proof.
  apply (namespace_must_be_an_object project_with_null_namespace VNone).
  - reflexivity.
  - reflexivity.
  - discriminate.
Defined.

Lemma null_author_raises :
  normalize Issue issue_with_null_author = Raise TypeError.
Proof.
  apply (author_must_be_an_object Issue issue_with_null_author VNone).
  - discriminate.
  - reflexivity.
  - reflexivity.
  - discriminate.
Defined.
